(** * Veo gallery: the video-generation workflow and its error classifier

    A shallow embedding of [src/App.tsx]: the request / poll / fetch /
    encode pipeline [generateVideoFromText], the classifier
    [parseErrorMessage] and the two handlers of the [App] component that
    call them.

    JavaScript strings are modelled as [string]; every [ascii] stands for
    one code unit (the code units below 256).  The literals of the source
    are all ASCII. *)

From Stdlib Require Import String Ascii List Bool Arith ZArith NArith Lia.
From Stdlib Require Import DecimalString DecimalPos DecimalZ.
Import ListNotations.

Local Open Scope list_scope.
Local Open Scope string_scope.

(* ================================================================== *)
(** ** The string primitives the source calls *)

Module JsString.

(** [s.includes(p)]: [p] occurs in [s] as a contiguous run of code
    units, compared exactly (no case folding, no normalisation). *)
Fixpoint includes (s p : string) : bool :=
  if prefix p s then true
  else match s with
       | EmptyString => false
       | String _ s' => includes s' p
       end.

(** Code units that [trim] removes (WhiteSpace and LineTerminator),
    as far as they lie below 256: TAB, LF, VT, FF, CR, SP, NBSP. *)
Definition isWhiteSpace (c : ascii) : bool :=
  let n := N_of_ascii c in
  (N.leb 9 n && N.leb n 13) || N.eqb n 32 || N.eqb n 160.

Fixpoint trimStart (s : string) : string :=
  match s with
  | EmptyString => EmptyString
  | String c s' => if isWhiteSpace c then trimStart s' else s
  end.

Fixpoint rev (s : string) : string :=
  match s with
  | EmptyString => EmptyString
  | String c s' => rev s' ++ String c EmptyString
  end.

(** [s.trim()] *)
Definition trim (s : string) : string :=
  rev (trimStart (rev (trimStart s))).

(** Truthiness of a string: only the empty string is falsy. *)
Definition truthy (s : string) : bool :=
  match s with EmptyString => false | _ => true end.

(** [s.substring(0, n)] for a non-negative integer [n]. *)
Definition substring0 (n : nat) (s : string) : string := substring 0 n s.

(** [s.split(sep)] for a one-code-unit separator: the pieces between
    the occurrences of [sep]; never the empty list. *)
Fixpoint split (sep : ascii) (s : string) : list string :=
  match s with
  | EmptyString => [EmptyString]
  | String c s' =>
      if Ascii.eqb c sep then EmptyString :: split sep s'
      else match split sep s' with
           | [] => [String c EmptyString]
           | piece :: rest => String c piece :: rest
           end
  end.

(** ASCII case folding, used to say that two messages differ in letter
    case only. *)
Definition lowerAscii (c : ascii) : ascii :=
  let n := N_of_ascii c in
  if N.leb 65 n && N.leb n 90 then ascii_of_N (n + 32) else c.

Fixpoint toLowerCase (s : string) : string :=
  match s with
  | EmptyString => EmptyString
  | String c s' => String (lowerAscii c) (toLowerCase s')
  end.

End JsString.

(* ================================================================== *)
(** ** JavaScript values that can be thrown and caught *)

(** The argument of [parseErrorMessage] has type [unknown].  [VError] is
    an instance of [Error] (or of a subclass) with its [message], which
    the type [Error] declares as a string; every other constructor is a
    value for which [instanceof Error] is false, a plain object with a
    [message] property included. *)
#[warnings="-register-all"]
Inductive JsValue : Type :=
| VUndefined
| VNull
| VBool (b : bool)
| VNumber (n : Z)
| VString (s : string)
| VObject (props : list (string * JsValue))
| VError (message : string).

(** [v instanceof Error] *)
Definition instanceofError (v : JsValue) : bool :=
  match v with VError _ => true | _ => false end.

(** A [string | undefined] slot: [None] is [undefined]. *)
Definition JsStr : Type := option string.

(** Interpolation of a [string | undefined] in a template literal. *)
Definition interpolate (s : JsStr) : string :=
  match s with Some s => s | None => "undefined" end.

(* ================================================================== *)
(** ** The classifier, [parseErrorMessage] (App.tsx, lines 83-119) *)

Definition parseErrorMessage (error : JsValue) : list string :=
  match error with
  | VError message =>
      if JsString.includes message "API key not valid" then
        ["Your API key is not valid.";
         "Please check your API key and try again."]
      else if JsString.includes message "permission denied" then
        ["Permission Denied.";
         "This model may require a specific tier or project configuration. Please check your project settings."]
      else if JsString.includes message "User location is not supported" then
        ["Location Not Supported.";
         "The model is not available in your current location."]
      else if JsString.includes message "Billing account not found" then
        ["Billing Issue.";
         "A valid billing account is required. Please select a Cloud Project with billing enabled."]
      else
        ["Video generation failed:"; message]
  | _ =>
      ["An unexpected error occurred.";
       "Please check the console for more details."]
  end.

(** The four patterns of the classifier, in the order they are tried. *)
Definition knownPatterns : list string :=
  ["API key not valid";
   "permission denied";
   "User location is not supported";
   "Billing account not found"].

(* ================================================================== *)
(** ** What the host provides: the SDK, the browser, the environment *)

(** The eventual state of a promise. [Pending] is a promise that never
    settles. *)
Inductive Promise (A : Type) : Type :=
| Fulfilled (value : A)
| Rejected (reason : JsValue)
| Pending.
Arguments Fulfilled {A} value.
Arguments Rejected {A} reason.
Arguments Pending {A}.

(** The declarations of [@google/genai] that the source uses.  The source
    reads [generatedVideo.video.uri] unguarded, so both are present here;
    [done], [response] and [generatedVideos] are optional, as the source's
    own tests of them show. *)
Module GenAI.

Record Video : Type := { uri : string }.

Record GeneratedVideo : Type := { video : Video }.

Record GenerateVideosResponse : Type :=
  { generatedVideos : option (list GeneratedVideo) }.

Record GenerateVideosOperation : Type :=
  { name : string;
    done : option bool;
    response : option GenerateVideosResponse }.

Record GenerateVideosConfig : Type :=
  { numberOfVideos : Z;
    aspectRatio : string }.

Record GenerateVideosParameters : Type :=
  { model : string;
    prompt : string;
    config : GenerateVideosConfig }.

(** [!operation.done] is false only for [done === true]. *)
Definition isDone (operation : GenerateVideosOperation) : bool :=
  match done operation with
  | Some true => true
  | _ => false
  end.

End GenAI.

(** A [Blob]; [dataUrl] is what a [FileReader] makes of it with
    [readAsDataURL]: [None] when the read fails, in which case no [load]
    event is fired. *)
Record Blob : Type := { dataUrl : option string }.

(** The part of a fetch [Response] that the source reads. *)
Record Response : Type :=
  { ok : bool;
    status : Z;
    statusText : string;
    blob : Promise Blob }.

(** What one run does to the outside world, in program order. *)
Inductive Event : Type :=
| EvGenerateVideos (params : GenAI.GenerateVideosParameters)
                   (answer : Promise GenAI.GenerateVideosOperation)
| EvSetTimeout (ms : Z)
| EvConsoleLog (args : list string)
| EvConsoleError (text : string) (error : JsValue)
| EvGetVideosOperation (operation : GenAI.GenerateVideosOperation)
                       (answer : Promise GenAI.GenerateVideosOperation)
| EvDecodeURIComponent (uri : string) (result : string + JsValue)
| EvFetch (url : string) (answer : Promise Response)
| EvRandomUUID (id : string).

(** The host over a world state [W].  Every call answers with the
    eventual state of the promise it returns and the next world state.
    [fetch] also tells how late its task settles, which decides which
    rejection [Promise.all] sees first. *)
Record Host (W : Type) : Type :=
  { API_KEY : JsStr;
    generateVideos :
      GenAI.GenerateVideosParameters -> W ->
      Promise GenAI.GenerateVideosOperation * W;
    getVideosOperation :
      GenAI.GenerateVideosOperation -> W ->
      Promise GenAI.GenerateVideosOperation * W;
    decodeURIComponent : string -> string + JsValue;
    fetch : string -> W -> (nat * Promise Response) * W;
    randomUUID : W -> string * W }.
Arguments API_KEY {W} _.
Arguments generateVideos {W} _ _ _.
Arguments getVideosOperation {W} _ _ _.
Arguments decodeURIComponent {W} _ _.
Arguments fetch {W} _ _ _.
Arguments randomUUID {W} _ _.

(* ================================================================== *)
(** ** Asynchronous code as state passing *)

(** A run of an async function from a world state: the state of the
    promise it returned ([None] when the fuel of a loop ran out before
    the model could tell), the world afterwards and the events, oldest
    first. *)
Definition Run (W A : Type) : Type := option (Promise A) * W * list Event.
Definition Async (W A : Type) : Type := W -> Run W A.

Definition ret {W A} (a : A) : Async W A :=
  fun w => (Some (Fulfilled a), w, []).

Definition throw {W A} (e : JsValue) : Async W A :=
  fun w => (Some (Rejected e), w, []).

Definition outOfFuel {W A} : Async W A :=
  fun w => (None, w, []).

Definition bind {W A B} (m : Async W A) (k : A -> Async W B) : Async W B :=
  fun w =>
    match m w with
    | (Some (Fulfilled a), w', t) =>
        let '(r, w'', t') := k a w' in (r, w'', (t ++ t')%list)
    | (Some (Rejected e), w', t) => (Some (Rejected e), w', t)
    | (Some Pending, w', t) => (Some Pending, w', t)
    | (None, w', t) => (None, w', t)
    end.

(** [await call]: the call is made, logged with its answer, and the
    function goes on with the value or fails with the reason. *)
Definition await {W A} (call : W -> Promise A * W)
                 (ev : Promise A -> Event) : Async W A :=
  fun w => let '(p, w') := call w in (Some p, w', [ev p]).

Definition emit {W} (e : Event) : Async W unit :=
  fun w => (Some (Fulfilled tt), w, [e]).

Declare Scope async_scope.
Delimit Scope async_scope with async.
Notation "x <- m ;; k" := (bind m (fun x => k))
  (at level 61, m at next level, right associativity) : async_scope.
Notation "m ;; k" := (bind m (fun _ => k))
  (at level 61, right associativity) : async_scope.

(* ================================================================== *)
(** ** The workflow (App.tsx, lines 18-81) *)

Definition VEO_MODEL_NAME : string := "veo-2.0-generate-001".

(** A parameter with a default value: the default stands in for an
    argument that is not passed. *)
Definition orDefault {A} (argument : option A) (default : A) : A :=
  match argument with Some a => a | None => default end.

(** The operation that an event hands to the workflow, if any. *)
Definition delivered (e : Event) : option GenAI.GenerateVideosOperation :=
  match e with
  | EvGenerateVideos _ (Fulfilled operation) => Some operation
  | EvGetVideosOperation _ (Fulfilled operation) => Some operation
  | _ => None
  end.

(** The operation whose status an event re-fetches, if it is a poll. *)
Definition polled (e : Event) : option GenAI.GenerateVideosOperation :=
  match e with
  | EvGetVideosOperation operation _ => Some operation
  | _ => None
  end.

(** The events of one turn of the polling loop that re-fetches
    [operation] and is answered with [answer]. *)
Definition pollRound (operation : GenAI.GenerateVideosOperation)
                     (answer : Promise GenAI.GenerateVideosOperation)
  : list Event :=
  [EvSetTimeout 10000;
   EvConsoleLog ["...Generating..."];
   EvGetVideosOperation operation answer].

(** The number of status re-fetches in a trace. *)
Definition pollCount (t : list Event) : nat :=
  length (filter (fun e => match polled e with
                           | Some _ => true
                           | None => false
                           end) t).

(** The events of the per-video stage. *)
Definition isMediaEvent (e : Event) : bool :=
  match e with
  | EvDecodeURIComponent _ _ | EvFetch _ _ => true
  | _ => false
  end.

(** A number in a template literal; the numbers here are integers. *)
Definition showNumber (n : Z) : string := NilZero.string_of_int (Z.to_int n).

(** [bloblToBase64]: the promise is resolved by the reader's [load]
    handler with the piece after the first comma of the data URL, or
    with [undefined] when the URL has no comma; nothing resolves or
    rejects it when the read fails. *)
Definition bloblToBase64 (b : Blob) : Promise JsStr :=
  match dataUrl b with
  | Some url => Fulfilled (nth_error (JsString.split "," url) 1)
  | None => Pending
  end.

(** The message of the error thrown for a response that is not [ok]. *)
Definition fetchFailure (res : Response) : JsValue :=
  VError ("Failed to fetch video: " ++ showNumber (status res) ++ " "
          ++ statusText res).

(** The body of the per-video callback after [await fetch(...)]
    (lines 69-75). *)
Definition afterFetch (answer : Promise Response) : Promise JsStr :=
  match answer with
  | Fulfilled res =>
      if negb (ok res) then Rejected (fetchFailure res)
      else match blob res with
           | Fulfilled b => bloblToBase64 b
           | Rejected e => Rejected e
           | Pending => Pending
           end
  | Rejected e => Rejected e
  | Pending => Pending
  end.

(** The reason for which the per-video task behind an event is rejected,
    when it is: [decodeURIComponent] threw, the fetch was rejected, the
    response was not [ok], or its body could not be read. *)
Definition rejectionOf (e : Event) : option JsValue :=
  match e with
  | EvDecodeURIComponent _ (inr error) => Some error
  | EvFetch _ answer =>
      match afterFetch answer with
      | Rejected error => Some error
      | _ => None
      end
  | _ => None
  end.

(** A task of [Promise.all]: when it settles and how. *)
Definition Task (A : Type) : Type := nat * Promise A.

(** The rejection that happens first; of two at the same time, the one
    of the lower index. *)
Fixpoint firstRejected {A} (tasks : list (Task A)) : option (nat * JsValue) :=
  match tasks with
  | [] => None
  | (t, Rejected e) :: rest =>
      match firstRejected rest with
      | Some (t', e') => if Nat.leb t t' then Some (t, e) else Some (t', e')
      | None => Some (t, e)
      end
  | _ :: rest => firstRejected rest
  end.

(** The values of the tasks in index order, when all are fulfilled. *)
Fixpoint allFulfilled {A} (tasks : list (Task A)) : option (list A) :=
  match tasks with
  | [] => Some []
  | (_, Fulfilled a) :: rest =>
      match allFulfilled rest with
      | Some l => Some (a :: l)
      | None => None
      end
  | _ :: _ => None
  end.

(** [Promise.all]: rejected with the first rejection, otherwise
    fulfilled with all values in index order once every task is
    fulfilled. *)
Definition promiseAll {A} (tasks : list (Task A)) : Promise (list A) :=
  match firstRejected tasks with
  | Some (_, e) => Rejected e
  | None =>
      match allFulfilled tasks with
      | Some l => Fulfilled l
      | None => Pending
      end
  end.

Section Workflow.

Context {W : Type} (host : Host W).

Local Open Scope async_scope.

(** The per-video callback of [videos.map] (lines 66-76).  It runs up
    to its first [await] as soon as it is called: an error of
    [decodeURIComponent] rejects the task at once, otherwise the fetch
    is issued and the task settles when the host says. *)
Definition fetchVideo (generatedVideo : GenAI.GeneratedVideo)
  : W -> Task JsStr * W * list Event :=
  fun w =>
    let uri := GenAI.uri (GenAI.video generatedVideo) in
    let decoded := decodeURIComponent host uri in
    match decoded with
    | inr e => ((0, Rejected e), w, [EvDecodeURIComponent uri decoded])
    | inl url =>
        let request := url ++ "&key=" ++ interpolate (API_KEY host) in
        let '((tick, answer), w') := fetch host request w in
        ((S tick, afterFetch answer), w',
         [EvDecodeURIComponent uri decoded; EvFetch request answer])
    end.

(** [videos.map(callback)]: the callbacks start in index order. *)
Fixpoint startAll (videos : list GenAI.GeneratedVideo) (w : W)
  : list (Task JsStr) * W * list Event :=
  match videos with
  | [] => ([], w, [])
  | generatedVideo :: rest =>
      let '(task, w', t) := fetchVideo generatedVideo w in
      let '(tasks, w'', t') := startAll rest w' in
      (task :: tasks, w'', (t ++ t')%list)
  end.

(** The polling loop (lines 53-57). *)
Fixpoint pollUntilDone (fuel : nat)
                       (operation : GenAI.GenerateVideosOperation)
  : Async W GenAI.GenerateVideosOperation :=
  if GenAI.isDone operation then ret operation
  else match fuel with
       | O => outOfFuel
       | S fuel' =>
           emit (EvSetTimeout 10000) ;;
           emit (EvConsoleLog ["...Generating..."]) ;;
           operation' <- await (getVideosOperation host operation)
                               (EvGetVideosOperation operation) ;;
           pollUntilDone fuel' operation'
       end.

(** Lines 43-57: submit the job and poll it until it is done. *)
Definition submitAndPoll (fuel : nat) (prompt : string) (numberOfVideos : Z)
  : Async W GenAI.GenerateVideosOperation :=
  let params :=
    {| GenAI.model := VEO_MODEL_NAME;
       GenAI.prompt := prompt;
       GenAI.config := {| GenAI.numberOfVideos := numberOfVideos;
                          GenAI.aspectRatio := "16:9" |} |} in
  operation <- await (generateVideos host params)
                     (EvGenerateVideos params) ;;
  pollUntilDone fuel operation.

(** Lines 59-80: what is done with the finished operation. *)
Definition collectVideos (operation : GenAI.GenerateVideosOperation)
  : Async W (list JsStr) :=
  match GenAI.response operation with
  | Some response =>
      match GenAI.generatedVideos response with
      | None | Some [] => throw (VError "No videos generated")
      | Some videos =>
          fun w =>
            let '(tasks, w', t) := startAll videos w in
            (Some (promiseAll tasks), w', t)
      end
  | None => throw (VError "No videos generated")
  end.

(** [generateVideoFromText(prompt, numberOfVideos = 1)]; [None] is a
    call without the second argument. *)
Definition generateVideoFromText (fuel : nat) (prompt : string)
                                 (numberOfVideos : option Z)
  : Async W (list JsStr) :=
  let numberOfVideos := orDefault numberOfVideos 1%Z in
  operation <- submitAndPoll fuel prompt numberOfVideos ;;
  collectVideos operation.

End Workflow.

(** [entry] is the encoded media of the reference [generatedVideo], and
    [events] are the events of its retrieval: the URI of the reference
    is decoded, the decoded URI is fetched with the key, the answer is
    [ok], and [entry] is the piece after the first comma of the data URL
    of its body. *)
Definition encodedFrom {W} (host : Host W)
                       (generatedVideo : GenAI.GeneratedVideo)
                       (events : list Event) (entry : JsStr) : Prop :=
  exists url res body dataURL,
    events =
      [EvDecodeURIComponent (GenAI.uri (GenAI.video generatedVideo)) (inl url);
       EvFetch (url ++ "&key=" ++ interpolate (API_KEY host)) (Fulfilled res)]
    /\ ok res = true
    /\ blob res = Fulfilled body
    /\ dataUrl body = Some dataURL
    /\ entry = nth_error (JsString.split "," dataURL) 1.

(** The entries are the encoded media of the references, one each, in
    the order of the references, and the retrievals were started in that
    order. *)
Inductive EncodedInOrder {W} (host : Host W)
  : list GenAI.GeneratedVideo -> list Event -> list JsStr -> Prop :=
| EncodedNone : EncodedInOrder host [] [] []
| EncodedNext generatedVideo events entry references trace entries :
    encodedFrom host generatedVideo events entry ->
    EncodedInOrder host references trace entries ->
    EncodedInOrder host (generatedVideo :: references)
                   (events ++ trace)%list (entry :: entries).

(** The references with which an operation completed, if it has any. *)
Definition referencesOf (operation : GenAI.GenerateVideosOperation)
  : option (list GenAI.GeneratedVideo) :=
  match GenAI.response operation with
  | Some response => GenAI.generatedVideos response
  | None => None
  end.

(** The fuel of the polling loop ran out: the model stops where the
    program would go on polling. *)
Definition stopped {A} (r : option (Promise A)) : bool :=
  match r with None => true | Some _ => false end.

(** What a trace may hold after the event that handed [operation] to the
    workflow.  If the operation is done, no timer, no log line and no
    re-fetch follows, only the per-video stage.  If it is not done, the
    next events are one turn of the loop re-fetching this very
    operation, unless the model [stop]s here. *)
Definition afterObserving (operation : GenAI.GenerateVideosOperation)
                          (stop : bool) (rest : list Event) : Prop :=
  if GenAI.isDone operation
  then forall e, In e rest -> isMediaEvent e = true /\ polled e = None
  else (exists answer rest', rest = (pollRound operation answer ++ rest')%list)
       \/ (stop = true /\ rest = []).

(* ================================================================== *)
(** ** The [App] component: its state and the two callers
       (App.tsx, lines 125-282) *)

(** [Video] of [./types], as the handlers build it. *)
Record Video : Type :=
  { id : string;
    title : string;
    description : string;
    videoUrl : string }.

(** The state hooks of [App] (the theme apart, which no handler below
    reads or writes). *)
Record AppState : Type :=
  { videos : list Video;
    playingVideo : option Video;
    editingVideo : option Video;
    isSaving : bool;
    generationError : option (list string);
    promptInput : string;
    generatedVideosCount : Z }.

(** A handler is run from the state in which it was created to its end;
    no other state update comes in between.

    A run of a handler: the state it leaves, whether the handler came to
    its end ([Some (Fulfilled tt)]), hangs on a promise that never
    settles ([Some Pending]) or ran out of fuel ([None]), the world and
    the events. *)
Record Handled (W : Type) : Type :=
  { after : AppState;
    settled : option (Promise unit);
    world : W;
    events : list Event }.
Arguments after {W} _.
Arguments settled {W} _.
Arguments world {W} _.
Arguments events {W} _.

Definition quote : string := String "034"%char EmptyString.

Section Handlers.

Context {W : Type} (host : Host W).

(** The [catch] and [finally] blocks, the same in both handlers:
    the error is logged and classified, and saving ends. *)
Definition failWith (s : AppState) (error : JsValue) : AppState :=
  {| videos := videos s;
     playingVideo := playingVideo s;
     editingVideo := editingVideo s;
     isSaving := false;
     generationError := Some (parseErrorMessage error);
     promptInput := promptInput s;
     generatedVideosCount := generatedVideosCount s |}.

(** [handleSaveEdit] (lines 203-239). *)
Definition handleSaveEdit (fuel : nat) (originalVideo : Video)
                          (s : AppState) (w : W) : Handled W :=
  let saving :=
    {| videos := videos s;
       playingVideo := playingVideo s;
       editingVideo := None;
       isSaving := true;
       generationError := None;
       promptInput := promptInput s;
       generatedVideosCount := generatedVideosCount s |} in
  let promptText := description originalVideo in
  let started := EvConsoleLog ["Generating video..."; promptText] in
  let '(r, w1, t) := generateVideoFromText host fuel promptText None w in
  let caught error :=
    {| after := failWith saving error;
       settled := Some (Fulfilled tt);
       world := w1;
       events := started :: t
                 ++ [EvConsoleError "Video generation failed:" error] |} in
  match r with
  | None =>
      {| after := saving; settled := None;
         world := w1; events := started :: t |}
  | Some Pending =>
      {| after := saving; settled := Some Pending;
         world := w1; events := started :: t |}
  | Some (Rejected error) => caught error
  | Some (Fulfilled []) =>
      caught (VError "Video generation returned no data.")
  | Some (Fulfilled (videoSrc :: _)) =>
      let mimeType := "video/mp4" in
      let src := "data:" ++ mimeType ++ ";base64," ++ interpolate videoSrc in
      let '(uuid, w2) := randomUUID host w1 in
      let newVideo :=
        {| id := uuid;
           title := "Remix of " ++ quote ++ title originalVideo ++ quote;
           description := description originalVideo;
           videoUrl := src |} in
      {| after :=
           {| videos := newVideo :: videos saving;
              playingVideo := Some newVideo;
              editingVideo := editingVideo saving;
              isSaving := false;
              generationError := generationError saving;
              promptInput := promptInput saving;
              generatedVideosCount := generatedVideosCount saving + 1 |};
         settled := Some (Fulfilled tt);
         world := w2;
         events := started :: t
                   ++ [EvConsoleLog ["Generated video data received."];
                       EvRandomUUID uuid] |}
  end.

(** [handleGenerateNewVideo] (lines 241-282). *)
Definition handleGenerateNewVideo (fuel : nat)
                                  (s : AppState) (w : W) : Handled W :=
  if negb (JsString.truthy (JsString.trim (promptInput s))) then
    {| after := s; settled := Some (Fulfilled tt);
       world := w; events := [] |}
  else
  let saving :=
    {| videos := videos s;
       playingVideo := playingVideo s;
       editingVideo := editingVideo s;
       isSaving := true;
       generationError := None;
       promptInput := promptInput s;
       generatedVideosCount := generatedVideosCount s |} in
  let promptText := promptInput s in
  let started :=
    EvConsoleLog ["Generating video from new prompt..."; promptText] in
  let '(r, w1, t) := generateVideoFromText host fuel promptText None w in
  let caught error :=
    {| after := failWith saving error;
       settled := Some (Fulfilled tt);
       world := w1;
       events := started :: t
                 ++ [EvConsoleError "Video generation failed:" error] |} in
  match r with
  | None =>
      {| after := saving; settled := None;
         world := w1; events := started :: t |}
  | Some Pending =>
      {| after := saving; settled := Some Pending;
         world := w1; events := started :: t |}
  | Some (Rejected error) => caught error
  | Some (Fulfilled []) =>
      caught (VError "Video generation returned no data.")
  | Some (Fulfilled (videoSrc :: _)) =>
      let mimeType := "video/mp4" in
      let src := "data:" ++ mimeType ++ ";base64," ++ interpolate videoSrc in
      let '(uuid, w2) := randomUUID host w1 in
      let newVideo :=
        {| id := uuid;
           title := "Generated: " ++ quote
                    ++ JsString.substring0 30 promptText
                    ++ (if Nat.ltb 30 (String.length promptText)
                        then "..." else "")
                    ++ quote;
           description := promptText;
           videoUrl := src |} in
      {| after :=
           {| videos := newVideo :: videos saving;
              playingVideo := Some newVideo;
              editingVideo := editingVideo saving;
              isSaving := false;
              generationError := generationError saving;
              promptInput := "";
              generatedVideosCount := generatedVideosCount saving + 1 |};
         settled := Some (Fulfilled tt);
         world := w2;
         events := started :: t
                   ++ [EvConsoleLog ["Generated video data received."];
                       EvRandomUUID uuid] |}
  end.

End Handlers.

(* ================================================================== *)
(** ** A scripted host, to run the model on concrete inputs *)

Module Script.

(** The world is the script of the answers still to come. *)
Record World : Type :=
  { submitAnswer : Promise GenAI.GenerateVideosOperation;
    pollAnswers : list (Promise GenAI.GenerateVideosOperation);
    fetchAnswers : list (nat * Promise Response);
    nextId : nat }.

Definition poll (w : World)
  : Promise GenAI.GenerateVideosOperation * World :=
  match pollAnswers w with
  | [] => (Pending, w)
  | answer :: rest =>
      (answer,
       {| submitAnswer := submitAnswer w; pollAnswers := rest;
          fetchAnswers := fetchAnswers w; nextId := nextId w |})
  end.

Definition get (w : World) : (nat * Promise Response) * World :=
  match fetchAnswers w with
  | [] => ((0, Pending), w)
  | answer :: rest =>
      (answer,
       {| submitAnswer := submitAnswer w; pollAnswers := pollAnswers w;
          fetchAnswers := rest; nextId := nextId w |})
  end.

Definition uuid (w : World) : string * World :=
  ("video-" ++ NilZero.string_of_uint (Nat.to_uint (nextId w)),
   {| submitAnswer := submitAnswer w; pollAnswers := pollAnswers w;
      fetchAnswers := fetchAnswers w; nextId := S (nextId w) |}).

(** URIs without escapes decode to themselves; this host knows no
    others. *)
Definition decode (s : string) : string + JsValue :=
  if JsString.includes s "%" then inr (VError "URI malformed") else inl s.

Definition host : Host World :=
  {| API_KEY := Some "KEY";
     generateVideos := fun _ w => (submitAnswer w, w);
     getVideosOperation := fun _ w => poll w;
     decodeURIComponent := decode;
     fetch := fun _ w => get w;
     randomUUID := uuid |}.

Definition running : GenAI.GenerateVideosOperation :=
  {| GenAI.name := "operations/1"; GenAI.done := Some false;
     GenAI.response := None |}.

Definition finished (uris : list string) : GenAI.GenerateVideosOperation :=
  {| GenAI.name := "operations/1"; GenAI.done := Some true;
     GenAI.response :=
       Some {| GenAI.generatedVideos :=
                 Some (map (fun u => {| GenAI.video := {| GenAI.uri := u |} |})
                           uris) |} |}.

Definition finishedWithout : GenAI.GenerateVideosOperation :=
  {| GenAI.name := "operations/1"; GenAI.done := Some true;
     GenAI.response := None |}.

Definition okResponse (payload : string) : Response :=
  {| ok := true; status := 200; statusText := "OK";
     blob := Fulfilled
               {| dataUrl := Some ("data:video/mp4;base64," ++ payload) |} |}.

Definition forbidden : Response :=
  {| ok := false; status := 403; statusText := "Forbidden";
     blob := Pending |}.

(** Two polls before the job is done, then two videos. *)
Definition twoVideos : World :=
  {| submitAnswer := Fulfilled running;
     pollAnswers := [Fulfilled running;
                     Fulfilled (finished ["https://v/a?x=1"; "https://v/b?x=2"])];
     fetchAnswers := [(5, Fulfilled (okResponse "QUFB"));
                      (2, Fulfilled (okResponse "QkJC"))];
     nextId := 0 |}.

(** The same job, the second video refused. *)
Definition secondForbidden : World :=
  {| submitAnswer := Fulfilled running;
     pollAnswers := [Fulfilled running;
                     Fulfilled (finished ["https://v/a?x=1"; "https://v/b?x=2"])];
     fetchAnswers := [(5, Fulfilled (okResponse "QUFB"));
                      (2, Fulfilled forbidden)];
     nextId := 0 |}.

(** A job that is done at once and has no response. *)
Definition noResponse : World :=
  {| submitAnswer := Fulfilled finishedWithout;
     pollAnswers := [];
     fetchAnswers := [];
     nextId := 0 |}.

Definition bearVideo : Video :=
  {| id := "1";
     title := "Bear";
     description := "a bear in the rapids";
     videoUrl := "https://videos.example/bear.mp4" |}.

Definition emptyApp : AppState :=
  {| videos := [];
     playingVideo := None;
     editingVideo := None;
     isSaving := false;
     generationError := None;
     promptInput := "a bear in the rapids";
     generatedVideosCount := 0 |}.

End Script.


(* ================================================================== *)
(** ** The rest of the [App] component *)

(** *** Local storage and the initial state (App.tsx, lines 134-179) *)

(** The items of [window.localStorage]. *)
Definition Store : Type := string -> option string.

(** [window.localStorage] itself.  The browser may refuse access to it,
    so that every use of it throws; or it may hand it out, and then
    reading succeeds, while writing succeeds or throws for lack of
    quota. *)
Inductive LocalStorage : Type :=
| Denied
| Granted (store : Store) (writable : bool).


(** [getItem(key)]: the item, or [null]. *)
Definition getItem (key : string) (store : Store) : option string :=
  store key.

(** [setItem(key, value)] *)
Definition setItem (key value : string) (store : Store) : Store :=
  fun k => if String.eqb k key then Some value else store k.

(** [setItem] inside a [try] whose [catch] only logs: a storage that
    throws is left as it is. *)
Definition trySetItem (key value : string) (storage : LocalStorage)
  : LocalStorage :=
  match storage with
  | Granted store true => Granted (setItem key value store) true
  | _ => storage
  end.

(** The value of a decimal digit. *)
Definition digitValue (c : ascii) : option Z :=
  let n := N_of_ascii c in
  if N.leb 48 n && N.leb n 57 then Some (Z.of_N (n - 48)) else None.

(** The value of the longest prefix of decimal digits of [s], read after
    the digits already counted in [acc]. *)
Fixpoint digitsValue (acc : Z) (s : string) : Z :=
  match s with
  | EmptyString => acc
  | String c s' =>
      match digitValue c with
      | Some d => digitsValue (10 * acc + d) s'
      | None => acc
      end
  end.

(** [parseInt(s, 10)]: leading white space is skipped, one sign is
    read, then the longest run of decimal digits; without a digit the
    result is [NaN], here [None].  Numbers are exact integers, as the
    numbers of JavaScript are below 2^53. *)
Definition parseInt10 (s : string) : option Z :=
  let trimmed := JsString.trimStart s in
  let '(sign, digits) :=
    match trimmed with
    | String "-" rest => ((-1)%Z, rest)
    | String "+" rest => (1%Z, rest)
    | _ => (1%Z, trimmed)
    end in
  match digits with
  | String c _ =>
      match digitValue c with
      | Some _ => Some (sign * digitsValue 0 digits)%Z
      | None => None
      end
  | EmptyString => None
  end.

(** The initializer of [generatedVideosCount] (lines 135-143); [None] is
    [NaN]. *)
Definition initialGeneratedVideosCount (storage : LocalStorage) : option Z :=
  match storage with
  | Granted store _ =>
      match getItem "generatedVideosCount" store with
      | Some savedCount =>
          if JsString.truthy savedCount then parseInt10 savedCount
          else Some 0%Z
      | None => Some 0%Z
      end
  | Denied => Some 0%Z
  end.

(** The initializer of [theme] (lines 145-157).  [prefersDark] is the
    answer of [matchMedia('(prefers-color-scheme: dark)')], [None] when
    that call throws.  The saved item is taken as it is, whatever it
    holds. *)
Definition initialTheme (storage : LocalStorage) (prefersDark : option bool)
  : string :=
  match storage with
  | Granted store _ =>
      let byPreference :=
        match prefersDark with
        | Some true => "dark"
        | Some false => "light"
        | None => "dark"
        end in
      match getItem "theme" store with
      | Some savedTheme =>
          if JsString.truthy savedTheme then savedTheme else byPreference
      | None => byPreference
      end
  | Denied => "dark"
  end.

(** The theme that the storage hands out, when it hands out one that is
    not the empty string. *)
Definition savedTheme (storage : LocalStorage) : option string :=
  match storage with
  | Granted store _ =>
      match getItem "theme" store with
      | Some saved => if JsString.truthy saved then Some saved else None
      | None => None
      end
  | Denied => None
  end.

(** The effect on [generatedVideosCount] (lines 159-168): the count is
    written in decimal. *)
Definition persistCount (count : Z) (storage : LocalStorage) : LocalStorage :=
  trySetItem "generatedVideosCount" (showNumber count) storage.

(** The class list of the root element: an ordered set of tokens. *)
Definition ClassList : Type := list string.

(** White space in the sense of a token list: TAB, LF, FF, CR, SP. *)
Definition isTokenSpace (c : ascii) : bool :=
  let n := N_of_ascii c in
  N.eqb n 9 || N.eqb n 10 || N.eqb n 12 || N.eqb n 13 || N.eqb n 32.

Fixpoint hasTokenSpace (s : string) : bool :=
  match s with
  | EmptyString => false
  | String c s' => isTokenSpace c || hasTokenSpace s'
  end.

Definition hasToken (token : string) (classes : ClassList) : bool :=
  existsb (String.eqb token) classes.

(** [classList.remove('light', 'dark')] *)
Definition removeThemeClasses (classes : ClassList) : ClassList :=
  filter (fun c => negb (String.eqb c "light" || String.eqb c "dark")) classes.

(** [classList.add(token)]: throws ([None]) for an empty token and for a
    token with white space; otherwise the token is appended unless it is
    there. *)
Definition classListAdd (token : string) (classes : ClassList)
  : option ClassList :=
  if negb (JsString.truthy token) || hasTokenSpace token then None
  else if hasToken token classes then Some classes
  else Some (classes ++ [token])%list.

(** The effect on [theme] (lines 170-179): the class of the root element
    is replaced and the theme is saved.  [None] when [classList.add]
    throws, which is outside the [try]. *)
Definition applyTheme (theme : string) (classes : ClassList)
                      (storage : LocalStorage)
  : option (ClassList * LocalStorage) :=
  match classListAdd theme (removeThemeClasses classes) with
  | Some classes' => Some (classes', trySetItem "theme" theme storage)
  | None => None
  end.

(** [handleToggleTheme] (lines 181-183), on the current theme. *)
Definition handleToggleTheme (theme : string) : string :=
  if String.eqb theme "dark" then "light" else "dark".

(** *** [ThemeToggle] (components/ThemeToggle.tsx) *)

Inductive Icon : Type := SunIcon | MoonIcon.

(** What the button shows: its label and its icon; a click calls
    [onToggle]. *)
Record ThemeToggleButton : Type :=
  { ariaLabel : string;
    icon : Icon }.

Definition ThemeToggle (theme : string) : ThemeToggleButton :=
  {| ariaLabel :=
       "Switch to " ++ (if String.eqb theme "dark" then "light" else "dark")
       ++ " mode";
     icon := if String.eqb theme "dark" then SunIcon else MoonIcon |}.

(** *** The handlers that only set state (App.tsx, lines 185-200) *)

Definition handlePlayVideo (video : Video) (s : AppState) : AppState :=
  {| videos := videos s;
     playingVideo := Some video;
     editingVideo := editingVideo s;
     isSaving := isSaving s;
     generationError := generationError s;
     promptInput := promptInput s;
     generatedVideosCount := generatedVideosCount s |}.

Definition handleClosePlayer (s : AppState) : AppState :=
  {| videos := videos s;
     playingVideo := None;
     editingVideo := editingVideo s;
     isSaving := isSaving s;
     generationError := generationError s;
     promptInput := promptInput s;
     generatedVideosCount := generatedVideosCount s |}.

Definition handleStartEdit (video : Video) (s : AppState) : AppState :=
  {| videos := videos s;
     playingVideo := None;
     editingVideo := Some video;
     isSaving := isSaving s;
     generationError := generationError s;
     promptInput := promptInput s;
     generatedVideosCount := generatedVideosCount s |}.

Definition handleCancelEdit (s : AppState) : AppState :=
  {| videos := videos s;
     playingVideo := playingVideo s;
     editingVideo := None;
     isSaving := isSaving s;
     generationError := generationError s;
     promptInput := promptInput s;
     generatedVideosCount := generatedVideosCount s |}.

(** [onClose] of the error modal (line 358). *)
Definition closeError (s : AppState) : AppState :=
  {| videos := videos s;
     playingVideo := playingVideo s;
     editingVideo := editingVideo s;
     isSaving := isSaving s;
     generationError := None;
     promptInput := promptInput s;
     generatedVideosCount := generatedVideosCount s |}.

(** [onChange] of the prompt (line 331). *)
Definition changePrompt (value : string) (s : AppState) : AppState :=
  {| videos := videos s;
     playingVideo := playingVideo s;
     editingVideo := editingVideo s;
     isSaving := isSaving s;
     generationError := generationError s;
     promptInput := value;
     generatedVideosCount := generatedVideosCount s |}.

(** The state of the first render (lines 126-144); [MOCK_VIDEOS] is the
    constant of [./constants] and [count] the number the initializer of
    the count gave. *)
Definition initialState (MOCK_VIDEOS : list Video) (count : Z) : AppState :=
  {| videos := MOCK_VIDEOS;
     playingVideo := None;
     editingVideo := None;
     isSaving := false;
     generationError := None;
     promptInput := "";
     generatedVideosCount := count |}.

(** *** What [App] renders (lines 284-363) *)

(** The gallery page, as far as it depends on the state. *)
Record GalleryView : Type :=
  { themeToggle : ThemeToggleButton;
    countShown : Z;
    countNoun : string;
    promptValue : string;
    promptDisabled : bool;
    generateDisabled : bool;
    grid : list Video }.

Inductive Page : Type :=
| EditVideoPage (video : Video)
| GalleryPage (gallery : GalleryView).

(** Either the progress page alone, or a page with, over it, the player
    and the error modal when there are any. *)
Inductive Rendered : Type :=
| SavingProgressPage
| AppScreen (page : Page) (player : option Video)
            (errorModal : option (list string)).

Definition render (theme : string) (s : AppState) : Rendered :=
  if isSaving s then SavingProgressPage
  else
    AppScreen
      match editingVideo s with
      | Some video => EditVideoPage video
      | None =>
          GalleryPage
            {| themeToggle := ThemeToggle theme;
               countShown := generatedVideosCount s;
               countNoun := if Z.eqb (generatedVideosCount s) 1
                            then "video" else "videos";
               promptValue := promptInput s;
               promptDisabled := isSaving s;
               generateDisabled :=
                 isSaving s
                 || negb (JsString.truthy (JsString.trim (promptInput s)));
               grid := videos s |}
      end
      (playingVideo s)
      (generationError s).

(** The callbacks that [App] hands to what it renders and that set the
    state above (the theme is kept apart, see [handleToggleTheme]). *)
Inductive Action : Type :=
| PlayVideo (video : Video)
| ClosePlayer
| StartEdit (video : Video)
| CancelEdit
| SaveEdit (video : Video)
| GenerateNewVideo
| CloseError
| ChangePrompt (value : string).

(** A callback can be called only by the element that holds it: the grid
    holds [PlayVideo], the player [ClosePlayer] and [StartEdit], the
    edit page [CancelEdit] and [SaveEdit], the modal [CloseError], the
    prompt and the button, unless disabled, [ChangePrompt] and
    [GenerateNewVideo]. *)
Definition offers (r : Rendered) (a : Action) : bool :=
  match r with
  | SavingProgressPage => false
  | AppScreen page player errorModal =>
      match a with
      | PlayVideo _ =>
          match page with GalleryPage _ => true | _ => false end
      | ClosePlayer | StartEdit _ =>
          match player with Some _ => true | None => false end
      | CancelEdit | SaveEdit _ =>
          match page with EditVideoPage _ => true | _ => false end
      | GenerateNewVideo =>
          match page with
          | GalleryPage gallery => negb (generateDisabled gallery)
          | _ => false
          end
      | CloseError =>
          match errorModal with Some _ => true | None => false end
      | ChangePrompt _ =>
          match page with
          | GalleryPage gallery => negb (promptDisabled gallery)
          | _ => false
          end
      end
  end.

(** The state after a callback has run to its end (or as far as it
    gets), against a host in world [w]. *)
Definition perform {W} (host : Host W) (fuel : nat) (w : W)
                   (a : Action) (s : AppState) : AppState :=
  match a with
  | PlayVideo video => handlePlayVideo video s
  | ClosePlayer => handleClosePlayer s
  | StartEdit video => handleStartEdit video s
  | CancelEdit => handleCancelEdit s
  | SaveEdit video => after (handleSaveEdit host fuel video s w)
  | GenerateNewVideo => after (handleGenerateNewVideo host fuel s w)
  | CloseError => closeError s
  | ChangePrompt value => changePrompt value s
  end.

(** The states a session reaches from [initial] through the callbacks
    that the screen offers, whatever the host answers. *)
Inductive Reachable {W} (host : Host W) (initial : AppState)
  : AppState -> Prop :=
| ReachedInitial : Reachable host initial initial
| ReachedNext s theme a fuel w :
    Reachable host initial s ->
    offers (render theme s) a = true ->
    Reachable host initial (perform host fuel w a s).

(** *** Readings of a trace *)

(** The time, in milliseconds, for which the timers of a trace were
    set. *)
Fixpoint waited (t : list Event) : Z :=
  match t with
  | [] => 0
  | EvSetTimeout ms :: rest => ms + waited rest
  | _ :: rest => waited rest
  end.

(** The URIs handed to [decodeURIComponent], in order. *)
Fixpoint decodedUris (t : list Event) : list string :=
  match t with
  | [] => []
  | EvDecodeURIComponent uri _ :: rest => uri :: decodedUris rest
  | _ :: rest => decodedUris rest
  end.

(** The URLs fetched, in order. *)
Fixpoint fetchedUrls (t : list Event) : list string :=
  match t with
  | [] => []
  | EvFetch url _ :: rest => url :: fetchedUrls rest
  | _ :: rest => fetchedUrls rest
  end.

(** The requests sent to start a job. *)
Fixpoint submissions (t : list Event) : list GenAI.GenerateVideosParameters :=
  match t with
  | [] => []
  | EvGenerateVideos params _ :: rest => params :: submissions rest
  | _ :: rest => submissions rest
  end.

(** The URLs to fetch for a list of references: the decoded URI of each
    reference whose URI decodes, with the key appended. *)
Fixpoint requestUrls {W} (host : Host W)
                     (references : list GenAI.GeneratedVideo) : list string :=
  match references with
  | [] => []
  | generatedVideo :: rest =>
      match decodeURIComponent host (GenAI.uri (GenAI.video generatedVideo)) with
      | inl url =>
          (url ++ "&key=" ++ interpolate (API_KEY host))
            :: requestUrls host rest
      | inr _ => requestUrls host rest
      end
  end.

(** The per-video task behind an event never settles: the fetch or the
    reading of the body stays pending, or the body cannot be read as a
    data URL. *)
Definition neverSettles (e : Event) : bool :=
  match e with
  | EvFetch _ answer =>
      match afterFetch answer with
      | Pending => true
      | _ => false
      end
  | _ => false
  end.

(** The answer to the first fetch of a trace. *)
Fixpoint firstFetch (t : list Event) : option (Promise Response) :=
  match t with
  | [] => None
  | EvFetch _ answer :: _ => Some answer
  | _ :: rest => firstFetch rest
  end.

(** The error with which the SDK answered a call, when it did. *)
Definition sdkRejection (e : Event) : option JsValue :=
  match e with
  | EvGenerateVideos _ (Rejected error) => Some error
  | EvGetVideosOperation _ (Rejected error) => Some error
  | _ => None
  end.

(** [pattern] occurs in [message]. *)
Definition occursIn (pattern message : string) : Prop :=
  exists before rest, message = before ++ pattern ++ rest.

(** No code unit of [s] is [c]. *)
Fixpoint without (c : ascii) (s : string) : bool :=
  match s with
  | EmptyString => true
  | String c' s' => negb (Ascii.eqb c' c) && without c s'
  end.

(** Every code unit of [s] is white space. *)
Fixpoint isBlank (s : string) : bool :=
  match s with
  | EmptyString => true
  | String c s' => JsString.isWhiteSpace c && isBlank s'
  end.

(** The two values of the type [Theme]. *)
Definition isTheme (theme : string) : bool :=
  String.eqb theme "light" || String.eqb theme "dark".

(** What either asynchronous handler can do to the gallery, the player
    and the count. *)
Definition keptOrAddedOne (s s' : AppState) : Prop :=
  (videos s' = videos s /\
   generatedVideosCount s' = generatedVideosCount s /\
   playingVideo s' = playingVideo s) \/
  (exists newVideo,
      videos s' = (newVideo :: videos s)%list /\
      generatedVideosCount s' = (generatedVideosCount s + 1)%Z /\
      playingVideo s' = Some newVideo).

(** More scripts for the host of [Script]. *)
Module Demo.

(** A body that cannot be read. *)
Definition unreadable : Response :=
  {| ok := true; status := 200; statusText := "OK";
     blob := Fulfilled {| dataUrl := None |} |}.

(** The job of [Script.twoVideos], the body of the second video
    unreadable. *)
Definition secondUnreadable : Script.World :=
  {| Script.submitAnswer := Fulfilled Script.running;
     Script.pollAnswers :=
       [Fulfilled Script.running;
        Fulfilled (Script.finished ["https://v/a?x=1"; "https://v/b?x=2"])];
     Script.fetchAnswers := [(5, Fulfilled (Script.okResponse "QUFB"));
                             (2, Fulfilled unreadable)];
     Script.nextId := 0 |}.

(** The job of [Script.twoVideos], the first URI malformed. *)
Definition firstMalformed : Script.World :=
  {| Script.submitAnswer := Fulfilled Script.running;
     Script.pollAnswers :=
       [Fulfilled Script.running;
        Fulfilled (Script.finished ["https://v/a%"; "https://v/b?x=2"])];
     Script.fetchAnswers := [(2, Fulfilled (Script.okResponse "QkJC"))];
     Script.nextId := 0 |}.

(** A submission that is refused. *)
Definition refused : Script.World :=
  {| Script.submitAnswer := Rejected (VError "API key not valid. Pass a valid key.");
     Script.pollAnswers := [];
     Script.fetchAnswers := [];
     Script.nextId := 0 |}.

(** A status check that fails after one turn. *)
Definition pollFails : Script.World :=
  {| Script.submitAnswer := Fulfilled Script.running;
     Script.pollAnswers := [Fulfilled Script.running;
                            Rejected (VError "network down");
                            Fulfilled (Script.finished ["https://v/a?x=1"])];
     Script.fetchAnswers := [(1, Fulfilled (Script.okResponse "QUFB"))];
     Script.nextId := 0 |}.

Definition emptyStore : Store := fun _ => None.

End Demo.

(* ================================================================== *)
(** * Properties *)

(** ** The primitives on concrete inputs *)

Example includes_finds_an_inner_occurrence :
  JsString.includes "Error 403: permission denied." "permission denied" = true.
Proof. reflexivity. Qed.

Example includes_compares_exactly :
  JsString.includes "Permission Denied" "permission denied" = false.
Proof. reflexivity. Qed.

Example includes_the_empty_pattern : JsString.includes "" "" = true.
Proof. reflexivity. Qed.

Example split_of_a_data_url :
  JsString.split "," "data:video/mp4;base64,QUFB" =
    ["data:video/mp4;base64"; "QUFB"].
Proof. reflexivity. Qed.

Example split_without_separator : JsString.split "," "QUFB" = ["QUFB"].
Proof. reflexivity. Qed.

Example trim_of_blanks :
  JsString.trim (String "009"%char "  a b  ") = "a b" /\
  JsString.truthy (JsString.trim "   ") = false.
Proof. split; reflexivity. Qed.

Example showNumber_of_a_status : showNumber 403 = "403".
Proof. reflexivity. Qed.

Example bloblToBase64_strips_the_prefix :
  bloblToBase64 {| dataUrl := Some "data:video/mp4;base64,QUFB" |} =
    Fulfilled (Some "QUFB").
Proof. reflexivity. Qed.

(** Two rejections: the earlier one wins, whatever its index. *)
Example promiseAll_first_rejection :
  promiseAll [(5, Rejected (VError "late") : Promise nat);
              (2, Rejected (VError "early"));
              (1, Fulfilled 7)] = Rejected (VError "early").
Proof. reflexivity. Qed.

Example promiseAll_keeps_index_order :
  promiseAll [(5, Fulfilled 1); (2, Fulfilled 2); (9, Fulfilled 3)] =
    Fulfilled [1; 2; 3].
Proof. reflexivity. Qed.

(** A job still running when the fuel is spent: the model stops. *)
Example run_without_enough_fuel :
  fst (fst (generateVideoFromText Script.host 1 "two bears" None
                                  Script.twoVideos)) = None.
Proof. reflexivity. Qed.

(** ** Substring search *)

Section Includes.

Import JsString.

Lemma prefix_length p : forall s,
  prefix p s = true -> String.length p <= String.length s.
Proof.
  induction p as [|a p IH]; intros [|b s]; simpl; try lia; try discriminate.
  destruct (ascii_dec a b); [|discriminate].
  intros H. apply IH in H. lia.
Qed.

Lemma prefix_same_length p : forall s,
  prefix p s = true -> String.length s = String.length p -> s = p.
Proof.
  induction p as [|a p IH]; intros [|b s]; simpl; try discriminate; auto.
  destruct (ascii_dec a b) as [->|]; [|discriminate].
  intros H L. f_equal. apply IH; [assumption | lia].
Qed.

Lemma prefix_toLowerCase p : forall s,
  prefix p s = true -> prefix (toLowerCase p) (toLowerCase s) = true.
Proof.
  induction p as [|a p IH]; intros [|b s]; simpl; try discriminate; auto.
  destruct (ascii_dec a b) as [->|]; [|discriminate].
  intros H. destruct (ascii_dec (lowerAscii b) (lowerAscii b)); [|congruence].
  now apply IH.
Qed.

Lemma includes_unfold s p :
  includes s p =
  prefix p s || match s with
                | EmptyString => false
                | String _ s' => includes s' p
                end.
Proof.
  destruct s as [|c s]; simpl.
  - destruct (prefix p ""); reflexivity.
  - destruct (prefix p (String c s)); reflexivity.
Qed.

Lemma includes_length s : forall p,
  includes s p = true -> String.length p <= String.length s.
Proof.
  induction s as [|c s IH]; intros p; rewrite includes_unfold;
    intros H; apply orb_prop in H; destruct H as [H|H].
  - now apply prefix_length.
  - discriminate.
  - now apply prefix_length.
  - apply IH in H. simpl. lia.
Qed.

(** A pattern as long as the message is included only if it is the
    message. *)
Lemma includes_same_length s p :
  includes s p = true -> String.length s = String.length p -> s = p.
Proof.
  rewrite includes_unfold. intros H L.
  apply orb_prop in H. destruct H as [H|H].
  - now apply prefix_same_length.
  - destruct s as [|c s]; [discriminate|].
    apply includes_length in H. simpl in L. lia.
Qed.

(** Case folding keeps every occurrence. *)
Lemma includes_toLowerCase s : forall p,
  includes s p = true -> includes (toLowerCase s) (toLowerCase p) = true.
Proof.
  induction s as [|c s IH]; intros p H;
    rewrite includes_unfold in H; apply orb_prop in H;
    rewrite includes_unfold; apply orb_true_intro;
    destruct H as [H|H].
  - left. now apply (prefix_toLowerCase p "").
  - discriminate.
  - left. now apply (prefix_toLowerCase p (String c s)).
  - right. simpl. now apply IH.
Qed.

Lemma toLowerCase_length s :
  String.length (toLowerCase s) = String.length s.
Proof. induction s; simpl; congruence. Qed.

(** [includes] finds exactly the contiguous occurrences. *)
Lemma prefix_append p : forall s,
  prefix p s = true <-> exists rest, s = p ++ rest.
Proof.
  induction p as [|a p IH]; intros s; simpl.
  - split; [intros _; now exists s | destruct s; reflexivity].
  - destruct s as [|b s]; simpl.
    + split; [discriminate | intros [rest H]; discriminate].
    + destruct (ascii_dec a b) as [->|N].
      * rewrite IH. split; intros [rest H]; exists rest; congruence.
      * split; [discriminate | intros [rest H]; congruence].
Qed.

Lemma includes_occurrence s : forall p,
  includes s p = true <-> exists before rest, s = before ++ p ++ rest.
Proof.
  induction s as [|c s IH]; intros p; rewrite includes_unfold; split.
  - intros H. apply orb_prop in H. destruct H as [H|]; [|discriminate].
    apply prefix_append in H. destruct H as [rest H]. now exists "", rest.
  - intros [before [rest H]]. apply orb_true_intro. left.
    apply prefix_append. destruct before; [|discriminate].
    now exists rest.
  - intros H. apply orb_prop in H. destruct H as [H|H].
    + apply prefix_append in H. destruct H as [rest H]. now exists "", rest.
    + apply IH in H. destruct H as [before [rest H]].
      exists (String c before), rest. simpl. congruence.
  - intros [before [rest H]]. apply orb_true_intro.
    destruct before as [|b before]; simpl in H.
    + left. apply prefix_append. now exists rest.
    + right. apply IH. exists before, rest. congruence.
Qed.

End Includes.

(* ================================================================== *)
(** ** The classifier *)

Section Classifier.

Import JsString.

(** The classifier answers with the generic pair as soon as no pattern
    occurs in the message. *)
Lemma parseErrorMessage_generic message :
  includes message "API key not valid" = false ->
  includes message "permission denied" = false ->
  includes message "User location is not supported" = false ->
  includes message "Billing account not found" = false ->
  parseErrorMessage (VError message) = ["Video generation failed:"; message].
Proof.
  intros H1 H2 H3 H4. unfold parseErrorMessage.
  now rewrite H1, H2, H3, H4.
Qed.

Lemma case_variant_not_included message pattern :
  toLowerCase message = toLowerCase pattern ->
  message <> pattern ->
  includes message pattern = false.
Proof.
  intros L N. destruct (includes message pattern) eqn:I; [|reflexivity].
  exfalso. apply N. apply includes_same_length; [assumption|].
  rewrite <- (toLowerCase_length message), L. apply toLowerCase_length.
Qed.

Lemma case_variant_excludes_other message pattern other :
  toLowerCase message = toLowerCase pattern ->
  includes (toLowerCase pattern) (toLowerCase other) = false ->
  includes message other = false.
Proof.
  intros L F. destruct (includes message other) eqn:I; [|reflexivity].
  apply includes_toLowerCase in I. rewrite L in I. congruence.
Qed.

End Classifier.

(** C5, as the spec words it, fails: for the message "Billing account
    not found" the detail line of the classifier is not the one the spec
    gives. *)
Lemma billing_detail_is_not_as_specified :
  JsString.includes "Billing account not found" "Billing account not found" = true /\
  JsString.includes "Billing account not found" "API key not valid" = false /\
  JsString.includes "Billing account not found" "permission denied" = false /\
  JsString.includes "Billing account not found" "User location is not supported" = false /\
  parseErrorMessage (VError "Billing account not found") <>
    ["Billing Issue.";
     "A valid billing account is required. Please select a project with billing enabled."].
Proof. repeat split; try reflexivity. vm_compute. discriminate. Qed.

(** C5 (amended): for every error whose message contains "Billing
    account not found" and none of the three patterns tried before it,
    the classifier returns the two lines "Billing Issue." and "A valid
    billing account is required. Please select a Cloud Project with
    billing enabled." *)
Theorem billing_account_not_found (message : string) :
  JsString.includes message "Billing account not found" = true ->
  JsString.includes message "API key not valid" = false ->
  JsString.includes message "permission denied" = false ->
  JsString.includes message "User location is not supported" = false ->
  parseErrorMessage (VError message) =
    ["Billing Issue.";
     "A valid billing account is required. Please select a Cloud Project with billing enabled."].
Proof.
  intros H4 H1 H2 H3. unfold parseErrorMessage.
  now rewrite H1, H2, H3, H4.
Qed.

Lemma billing_account_not_found_witness :
  let message :=
    "FAILED_PRECONDITION: Billing account not found for project 42" in
  JsString.includes message "Billing account not found" = true /\
  JsString.includes message "API key not valid" = false /\
  JsString.includes message "permission denied" = false /\
  JsString.includes message "User location is not supported" = false /\
  parseErrorMessage (VError message) =
    ["Billing Issue.";
     "A valid billing account is required. Please select a Cloud Project with billing enabled."].
Proof.
  cbv zeta. repeat (split; [reflexivity|]).
  apply (billing_account_not_found
           "FAILED_PRECONDITION: Billing account not found for project 42");
    reflexivity.
Defined.

(** C6: for every error whose message contains "permission denied", in
    this very spelling, and does not contain "API key not valid", the
    classifier returns the two lines "Permission Denied." and "This model
    may require a specific tier or project configuration. Please check
    your project settings." *)
Theorem permission_denied (message : string) :
  JsString.includes message "permission denied" = true ->
  JsString.includes message "API key not valid" = false ->
  parseErrorMessage (VError message) =
    ["Permission Denied.";
     "This model may require a specific tier or project configuration. Please check your project settings."].
Proof.
  intros H2 H1. unfold parseErrorMessage. now rewrite H1, H2.
Qed.

Lemma permission_denied_witness :
  let message := "403: permission denied on resource veo" in
  JsString.includes message "permission denied" = true /\
  JsString.includes message "API key not valid" = false /\
  parseErrorMessage (VError message) =
    ["Permission Denied.";
     "This model may require a specific tier or project configuration. Please check your project settings."].
Proof.
  cbv zeta. repeat (split; [reflexivity|]).
  apply (permission_denied "403: permission denied on resource veo");
    reflexivity.
Defined.

(** C7: for every error whose message contains none of the four known
    patterns, the classifier returns "Video generation failed:" followed
    by the message itself, unchanged. *)
Theorem unmatched_message_is_reported_verbatim (message : string) :
  Forall (fun pattern => JsString.includes message pattern = false)
         knownPatterns ->
  parseErrorMessage (VError message) = ["Video generation failed:"; message].
Proof.
  intros H. unfold knownPatterns in H.
  repeat match goal with
         | H : Forall _ (_ :: _) |- _ => inversion H; subst; clear H
         end.
  now apply parseErrorMessage_generic.
Qed.

Lemma unmatched_message_is_reported_verbatim_witness :
  Forall (fun pattern => JsString.includes "boom" pattern = false)
         knownPatterns /\
  parseErrorMessage (VError "boom") = ["Video generation failed:"; "boom"].
Proof.
  assert (H : Forall (fun pattern => JsString.includes "boom" pattern = false)
                     knownPatterns) by (repeat constructor).
  split; [exact H|].
  apply (unmatched_message_is_reported_verbatim "boom" H).
Defined.

(** C8: the classifier is defined on every value and always returns two
    lines; for every value that is not an instance of [Error] these are
    "An unexpected error occurred." and "Please check the console for
    more details." *)
Theorem non_error_gets_the_fallback (v : JsValue) :
  (exists headline detail, parseErrorMessage v = [headline; detail]) /\
  (instanceofError v = false ->
   parseErrorMessage v =
     ["An unexpected error occurred.";
      "Please check the console for more details."]).
Proof.
  split.
  - destruct v; simpl; try (eexists; eexists; reflexivity).
    repeat match goal with
           | |- context [if ?b then _ else _] => destruct b
           end; eexists; eexists; reflexivity.
  - destruct v; simpl; intros H; try reflexivity. discriminate.
Qed.

Lemma non_error_gets_the_fallback_witness :
  let thrown := VObject [("message", VString "API key not valid")] in
  instanceofError thrown = false /\
  parseErrorMessage thrown =
    ["An unexpected error occurred.";
     "Please check the console for more details."].
Proof.
  cbv zeta. split; [reflexivity|].
  apply (non_error_gets_the_fallback
           (VObject [("message", VString "API key not valid")])).
  reflexivity.
Defined.

(** C9: every pattern is matched case-sensitively: an error whose message
    is one of the four patterns in another letter case gets the generic
    pair "Video generation failed:" and the message, not the lines of
    the pattern. *)
Theorem patterns_are_case_sensitive (message pattern : string) :
  In pattern knownPatterns ->
  JsString.toLowerCase message = JsString.toLowerCase pattern ->
  message <> pattern ->
  parseErrorMessage (VError message) = ["Video generation failed:"; message].
Proof.
  intros P L N.
  assert (Same : JsString.includes message pattern = false)
    by now apply case_variant_not_included.
  assert (Other : forall other,
             JsString.includes (JsString.toLowerCase pattern)
                               (JsString.toLowerCase other) = false ->
             JsString.includes message other = false)
    by (intros other; now apply case_variant_excludes_other).
  unfold knownPatterns in P. simpl in P.
  destruct P as [<-|[<-|[<-|[<-|[]]]]];
    apply parseErrorMessage_generic;
    first [exact Same | apply Other; vm_compute; reflexivity].
Qed.

Lemma patterns_are_case_sensitive_witness :
  (In "API key not valid" knownPatterns /\
   JsString.toLowerCase "API KEY NOT VALID" =
     JsString.toLowerCase "API key not valid" /\
   "API KEY NOT VALID" <> "API key not valid") /\
  parseErrorMessage (VError "API KEY NOT VALID") =
    ["Video generation failed:"; "API KEY NOT VALID"] /\
  parseErrorMessage (VError "billing account not found") =
    ["Video generation failed:"; "billing account not found"].
Proof.
  split; [|split].
  - repeat split; [simpl; tauto | discriminate].
  - apply (patterns_are_case_sensitive "API KEY NOT VALID" "API key not valid");
      [simpl; tauto | reflexivity | discriminate].
  - apply (patterns_are_case_sensitive "billing account not found"
                                       "Billing account not found");
      [simpl; tauto | reflexivity | discriminate].
Defined.

(* ================================================================== *)
(** ** The workflow *)

Local Open Scope list_scope.

Section WorkflowFacts.

Context {W : Type} (host : Host W).

Implicit Types (operation : GenAI.GenerateVideosOperation) (w : W).

(** *** The equations of the loop *)

Lemma pollUntilDone_done fuel operation w :
  GenAI.isDone operation = true ->
  pollUntilDone host fuel operation w = (Some (Fulfilled operation), w, []).
Proof. intros H. destruct fuel; simpl; rewrite H; reflexivity. Qed.

Lemma pollUntilDone_stop operation w :
  GenAI.isDone operation = false ->
  pollUntilDone host 0 operation w = (None, w, []).
Proof. intros H. simpl. rewrite H. reflexivity. Qed.

Lemma pollUntilDone_step fuel operation w :
  GenAI.isDone operation = false ->
  pollUntilDone host (S fuel) operation w =
  match getVideosOperation host operation w with
  | (Fulfilled operation', w1) =>
      let '(r, w2, t) := pollUntilDone host fuel operation' w1 in
      (r, w2, pollRound operation (Fulfilled operation') ++ t)
  | (Rejected e, w1) =>
      (Some (Rejected e), w1, pollRound operation (Rejected e))
  | (Pending, w1) =>
      (Some Pending, w1, pollRound operation Pending)
  end.
Proof.
  intros H. simpl. rewrite H. unfold bind, emit, await.
  destruct (getVideosOperation host operation w) as [[operation'|e|] w1];
    try reflexivity.
  destruct (pollUntilDone host fuel operation' w1) as [[r w2] t].
  reflexivity.
Qed.

(** The loop hands back only operations that are done. *)
Lemma pollUntilDone_returns_done fuel : forall operation w operation' w' t,
  pollUntilDone host fuel operation w = (Some (Fulfilled operation'), w', t) ->
  GenAI.isDone operation' = true.
Proof.
  induction fuel as [|fuel IH]; intros operation w operation' w' t;
    destruct (GenAI.isDone operation) eqn:D.
  - rewrite pollUntilDone_done by assumption. congruence.
  - rewrite pollUntilDone_stop by assumption. discriminate.
  - rewrite pollUntilDone_done by assumption. congruence.
  - rewrite pollUntilDone_step by assumption.
    destruct (getVideosOperation host operation w) as [[next|e|] w1];
      try discriminate.
    destruct (pollUntilDone host fuel next w1) as [[r w2] t2] eqn:E.
    intros H. inversion H; subst. eapply IH; eassumption.
Qed.

(** More fuel does not change a run that came to an end. *)
Lemma pollUntilDone_more_fuel fuel : forall operation w p w' t extra,
  pollUntilDone host fuel operation w = (Some p, w', t) ->
  pollUntilDone host (fuel + extra) operation w = (Some p, w', t).
Proof.
  induction fuel as [|fuel IH]; intros operation w p w' t extra;
    destruct (GenAI.isDone operation) eqn:D.
  - rewrite !pollUntilDone_done by assumption. auto.
  - rewrite pollUntilDone_stop by assumption. discriminate.
  - rewrite !pollUntilDone_done by assumption. auto.
  - simpl Nat.add. rewrite !pollUntilDone_step by assumption.
    destruct (getVideosOperation host operation w) as [[next|e|] w1]; auto.
    destruct (pollUntilDone host fuel next w1) as [[r w2] t2] eqn:E.
    intros H. inversion H; subst.
    now rewrite (IH _ _ _ _ _ extra E).
Qed.

(** *** The trace of the loop *)

Ltac fold_round operation answer rest :=
  change (EvSetTimeout 10000
          :: EvConsoleLog ["...Generating..."%string]
          :: EvGetVideosOperation operation answer :: rest)
    with (pollRound operation answer ++ rest).

Lemma media_event_not_delivered e :
  isMediaEvent e = true -> delivered e = None /\ polled e = None.
Proof. destruct e; simpl; try discriminate; auto. Qed.

Lemma afterObserving_media operation stop tail :
  GenAI.isDone operation = true ->
  (forall e, In e tail -> isMediaEvent e = true) ->
  afterObserving operation stop tail.
Proof.
  intros D M. unfold afterObserving. rewrite D.
  intros e I. split; [now apply M | now apply media_event_not_delivered, M].
Qed.

(** One turn of the loop in front of a disciplined trace. *)
Lemma discipline_after_round operation answer stop rest :
  GenAI.isDone operation = false ->
  (forall next, answer = Fulfilled next -> afterObserving next stop rest) ->
  (forall before e after observed,
      rest = before ++ e :: after -> delivered e = Some observed ->
      afterObserving observed stop after) ->
  forall before e after observed,
    pollRound operation answer ++ rest = before ++ e :: after ->
    delivered e = Some observed ->
    afterObserving observed stop after.
Proof.
  intros D Next Rest before e after observed E Del.
  unfold pollRound in E. simpl in E.
  destruct before as [|b1 [|b2 [|b3 before]]]; simpl in E;
    inversion E; subst; simpl in Del; try discriminate.
  - destruct answer as [next| |]; try discriminate.
    inversion Del; subst. now apply Next.
  - eapply Rest; [reflexivity | eassumption].
Qed.

Lemma polls_after_round operation answer rest :
  GenAI.isDone operation = false ->
  (forall e observed, In e rest -> polled e = Some observed ->
                      GenAI.isDone observed = false) ->
  forall e observed,
    In e (pollRound operation answer ++ rest) -> polled e = Some observed ->
    GenAI.isDone observed = false.
Proof.
  intros D Rest e observed I P. simpl in I.
  destruct I as [<-|[<-|[<-|I]]]; simpl in P; try discriminate.
  - congruence.
  - eapply Rest; eassumption.
Qed.

(** The trace of the loop, followed by the events of the per-video
    stage when the loop handed back an operation. *)
Lemma pollUntilDone_discipline fuel :
  forall operation w r w' t tail,
    pollUntilDone host fuel operation w = (r, w', t) ->
    (forall e, In e tail -> isMediaEvent e = true) ->
    (exists last, r = Some (Fulfilled last)) \/ tail = [] ->
    afterObserving operation (stopped r) (t ++ tail) /\
    (forall before e after observed,
        t ++ tail = before ++ e :: after -> delivered e = Some observed ->
        afterObserving observed (stopped r) after) /\
    (forall e observed, In e (t ++ tail) -> polled e = Some observed ->
                        GenAI.isDone observed = false).
Proof.
  induction fuel as [|fuel IH]; intros operation w r w' t tail Run Media End;
    destruct (GenAI.isDone operation) eqn:D.
  - rewrite pollUntilDone_done in Run by assumption.
    inversion Run; subst; clear Run. simpl.
    split; [now apply afterObserving_media|]. split.
    + intros before e after observed E Del.
      assert (I : In e tail) by (rewrite E; apply in_elt).
      apply Media, media_event_not_delivered in I. destruct I. congruence.
    + intros e observed I P.
      apply Media, media_event_not_delivered in I. destruct I. congruence.
  - rewrite pollUntilDone_stop in Run by assumption.
    inversion Run; subst; clear Run.
    destruct End as [[last E]| ->]; [discriminate|]. simpl.
    split; [unfold afterObserving; rewrite D; now right|]. split.
    + intros before e after observed E. now destruct before.
    + intros e observed [].
  - rewrite pollUntilDone_done in Run by assumption.
    inversion Run; subst; clear Run. simpl.
    split; [now apply afterObserving_media|]. split.
    + intros before e after observed E Del.
      assert (I : In e tail) by (rewrite E; apply in_elt).
      apply Media, media_event_not_delivered in I. destruct I. congruence.
    + intros e observed I P.
      apply Media, media_event_not_delivered in I. destruct I. congruence.
  - rewrite pollUntilDone_step in Run by assumption.
    destruct (getVideosOperation host operation w) as [[next|error|] w1].
    + destruct (pollUntilDone host fuel next w1) as [[r2 w2] t2] eqn:E.
      injection Run as -> -> <-.
      destruct (IH _ _ _ _ _ tail E Media End) as [Head [Splits Polls]].
      cbn [app]. fold_round operation (Fulfilled next) (t2 ++ tail).
      split; [|split].
      * unfold afterObserving. rewrite D. left. eauto.
      * apply discipline_after_round; auto.
        intros next' N. inversion N; subst. exact Head.
      * now apply polls_after_round.
    + injection Run as <- <- <-.
      destruct End as [[last E]| ->]; [discriminate|].
      cbn [app]. fold_round operation (@Pending GenAI.GenerateVideosOperation) (@nil Event).
      cbn [app]. fold_round operation (@Rejected GenAI.GenerateVideosOperation error) (@nil Event).
      split; [|split].
      * unfold afterObserving. rewrite D. left. eauto.
      * apply discipline_after_round; auto; try discriminate.
        intros before e after observed E. now destruct before.
      * apply polls_after_round; auto. intros e observed [].
    + injection Run as <- <- <-.
      destruct End as [[last E]| ->]; [discriminate|].
      split; [|split].
      * unfold afterObserving. rewrite D. left. eauto.
      * apply discipline_after_round; auto; try discriminate.
        intros before e after observed E. now destruct before.
      * apply polls_after_round; auto. intros e observed [].
Qed.

Lemma pollUntilDone_no_media fuel : forall operation w r w' t e,
  pollUntilDone host fuel operation w = (r, w', t) ->
  In e t -> isMediaEvent e = false.
Proof.
  induction fuel as [|fuel IH]; intros operation w r w' t e Run I;
    destruct (GenAI.isDone operation) eqn:D.
  - rewrite pollUntilDone_done in Run by assumption.
    inversion Run; subst. destruct I.
  - rewrite pollUntilDone_stop in Run by assumption.
    inversion Run; subst. destruct I.
  - rewrite pollUntilDone_done in Run by assumption.
    inversion Run; subst. destruct I.
  - rewrite pollUntilDone_step in Run by assumption.
    destruct (getVideosOperation host operation w) as [[next|error|] w1].
    + destruct (pollUntilDone host fuel next w1) as [[r2 w2] t2] eqn:E.
      inversion Run; subst; clear Run. simpl in I.
      destruct I as [<-|[<-|[<-|I]]]; try reflexivity.
      eapply IH; eassumption.
    + inversion Run; subst; clear Run. simpl in I.
      destruct I as [<-|[<-|[<-|[]]]]; reflexivity.
    + inversion Run; subst; clear Run. simpl in I.
      destruct I as [<-|[<-|[<-|[]]]]; reflexivity.
Qed.

(** The model stops for lack of fuel only after as many re-fetches as it
    had fuel. *)
Lemma pollUntilDone_stopped_late fuel : forall operation w w' t,
  pollUntilDone host fuel operation w = (None, w', t) ->
  pollCount t = fuel.
Proof.
  induction fuel as [|fuel IH]; intros operation w w' t;
    destruct (GenAI.isDone operation) eqn:D.
  - rewrite pollUntilDone_done by assumption. discriminate.
  - rewrite pollUntilDone_stop by assumption.
    intros Run. injection Run as _ <-. reflexivity.
  - rewrite pollUntilDone_done by assumption. discriminate.
  - rewrite pollUntilDone_step by assumption.
    destruct (getVideosOperation host operation w) as [[next|error|] w1];
      try discriminate.
    destruct (pollUntilDone host fuel next w1) as [[r2 w2] t2] eqn:E.
    intros Run. injection Run as -> _ <-.
    unfold pollCount. simpl. f_equal. eapply IH, E.
Qed.

(** *** The run of the whole function, stage by stage *)

Lemma submitAndPoll_inv fuel prompt n w r w' t :
  submitAndPoll host fuel prompt n w = (r, w', t) ->
  exists params answer w0,
    GenAI.prompt params = prompt /\
    GenAI.numberOfVideos (GenAI.config params) = n /\
    generateVideos host params w = (answer, w0) /\
    ((exists first t0,
         answer = Fulfilled first /\
         pollUntilDone host fuel first w0 = (r, w', t0) /\
         t = EvGenerateVideos params answer :: t0)
     \/ (delivered (EvGenerateVideos params answer) = None /\
         r = Some answer /\
         (forall operation, r <> Some (Fulfilled operation)) /\
         t = [EvGenerateVideos params answer])).
Proof.
  unfold submitAndPoll, bind, await.
  match goal with
  | |- context [generateVideos host ?p w] => set (params := p)
  end.
  destruct (generateVideos host params w) as [answer w0] eqn:G.
  intros Run. exists params, answer, w0.
  split; [reflexivity|]. split; [reflexivity|]. split; [exact G|].
  destruct answer as [first|error|].
  - left. destruct (pollUntilDone host fuel first w0) as [[r0 w1] t0] eqn:P.
    injection Run as <- <- <-. eauto.
  - right. injection Run as <- <- <-. repeat split; congruence.
  - right. injection Run as <- <- <-. repeat split; congruence.
Qed.

Lemma generateVideoFromText_inv fuel prompt count w r w' t :
  generateVideoFromText host fuel prompt count w = (r, w', t) ->
  exists r1 w1 t1,
    submitAndPoll host fuel prompt (orDefault count 1%Z) w = (r1, w1, t1) /\
    ((exists operation t2,
         r1 = Some (Fulfilled operation) /\
         collectVideos host operation w1 = (r, w', t2) /\
         t = t1 ++ t2)
     \/ ((forall operation, r1 <> Some (Fulfilled operation)) /\
         (forall entries, r <> Some (Fulfilled entries)) /\
         stopped r = stopped r1 /\
         w' = w1 /\ t = t1)).
Proof.
  unfold generateVideoFromText, bind.
  destruct (submitAndPoll host fuel prompt (orDefault count 1%Z) w)
    as [[r1 w1] t1] eqn:S.
  intros Run. exists r1, w1, t1. split; [reflexivity|].
  destruct r1 as [[operation|error|]|].
  - left. destruct (collectVideos host operation w1) as [[r2 w2] t2] eqn:C.
    injection Run as <- <- <-. eauto.
  - right. injection Run as <- <- <-. repeat split; congruence.
  - right. injection Run as <- <- <-. repeat split; congruence.
  - right. injection Run as <- <- <-. repeat split; congruence.
Qed.

Lemma submitAndPoll_no_media fuel prompt n w r w' t e :
  submitAndPoll host fuel prompt n w = (r, w', t) ->
  In e t -> isMediaEvent e = false.
Proof.
  intros Run I. apply submitAndPoll_inv in Run.
  destruct Run as (params & answer & w0 & _ & _ & _ & Cases).
  destruct Cases as [(first & t0 & -> & P & ->)|(_ & _ & _ & ->)];
    destruct I as [<-|I]; try reflexivity.
  - eapply pollUntilDone_no_media; eassumption.
  - destruct I.
Qed.

Lemma submitAndPoll_returns_done fuel prompt n w operation w' t :
  submitAndPoll host fuel prompt n w = (Some (Fulfilled operation), w', t) ->
  GenAI.isDone operation = true.
Proof.
  intros Run. apply submitAndPoll_inv in Run.
  destruct Run as (params & answer & w0 & _ & _ & _ & Cases).
  destruct Cases as [(first & t0 & -> & P & ->)|(_ & _ & N & _)].
  - eapply pollUntilDone_returns_done; eassumption.
  - now destruct (N operation).
Qed.

(** *** The per-video stage *)

Lemma fetchVideo_media generatedVideo w task w' t e :
  fetchVideo host generatedVideo w = (task, w', t) ->
  In e t -> isMediaEvent e = true.
Proof.
  unfold fetchVideo.
  destruct (decodeURIComponent host _) as [url|error].
  - destruct (fetch host _ w) as [[tick answer] w1].
    intros Run. injection Run as <- <- <-.
    intros [<-|[<-|[]]]; reflexivity.
  - intros Run. injection Run as <- <- <-.
    intros [<-|[]]; reflexivity.
Qed.

Lemma startAll_media videos : forall w tasks w' t e,
  startAll host videos w = (tasks, w', t) ->
  In e t -> isMediaEvent e = true.
Proof.
  induction videos as [|generatedVideo rest IH]; intros w tasks w' t e; simpl.
  - intros Run. injection Run as <- <- <-. intros [].
  - destruct (fetchVideo host generatedVideo w) as [[task w1] t1] eqn:F.
    destruct (startAll host rest w1) as [[tasks' w2] t2] eqn:A.
    intros Run. injection Run as <- <- <-.
    intros I. apply in_app_or in I. destruct I as [I|I].
    + eapply fetchVideo_media; eassumption.
    + eapply IH; eassumption.
Qed.

Lemma collectVideos_media operation w r w' t :
  collectVideos host operation w = (r, w', t) ->
  stopped r = false /\ forall e, In e t -> isMediaEvent e = true.
Proof.
  unfold collectVideos, throw.
  destruct (GenAI.response operation) as [response|].
  - destruct (GenAI.generatedVideos response) as [[|generatedVideo rest]|].
    + intros Run. injection Run as <- <- <-. split; [reflexivity | intros e []].
    + destruct (startAll host (generatedVideo :: rest) w)
        as [[tasks w1] t1] eqn:A.
      intros Run. injection Run as <- <- <-. split; [reflexivity|].
      intros e. eapply startAll_media; eassumption.
    + intros Run. injection Run as <- <- <-. split; [reflexivity | intros e []].
  - intros Run. injection Run as <- <- <-. split; [reflexivity | intros e []].
Qed.

(** *** [Promise.all] *)

Lemma firstRejected_in {A} (tasks : list (Task A)) tick error :
  firstRejected tasks = Some (tick, error) ->
  In (tick, Rejected error) tasks.
Proof.
  revert tick error.
  induction tasks as [|[t [value|reason|]] rest IH]; intros tick error; simpl;
    try discriminate; try (intros H; right; now apply IH).
  destruct (firstRejected rest) as [[t' e']|].
  - destruct (Nat.leb t t'); intros H; injection H as <- <-.
    + now left.
    + right. now apply IH.
  - intros H. injection H as <- <-. now left.
Qed.

Lemma firstRejected_some {A} (tasks : list (Task A)) tick error :
  In (tick, Rejected error) tasks ->
  exists first, firstRejected tasks = Some first.
Proof.
  induction tasks as [|[t [value|reason|]] rest IH]; simpl; intros I.
  - destruct I.
  - destruct I as [I|I]; [discriminate | now apply IH].
  - destruct (firstRejected rest) as [[t' e']|]; [|eauto].
    destruct (Nat.leb t t'); eauto.
  - destruct I as [I|I]; [discriminate | now apply IH].
Qed.

(** The first rejection is the earliest one. *)
Lemma firstRejected_earliest {A} (tasks : list (Task A)) tick error :
  firstRejected tasks = Some (tick, error) ->
  forall tick' error', In (tick', Rejected error') tasks -> tick <= tick'.
Proof.
  revert tick error.
  induction tasks as [|[t [value|reason|]] rest IH]; intros tick error; simpl;
    try discriminate.
  - intros H tick' error' [I|I]; [discriminate | eapply IH; eassumption].
  - destruct (firstRejected rest) as [[t' e']|] eqn:F.
    + destruct (Nat.leb t t') eqn:L; intros H; injection H as <- <-;
        intros tick' error' [I|I].
      * injection I as <- <-. lia.
      * apply Nat.leb_le in L.
        specialize (IH _ _ eq_refl _ _ I). lia.
      * injection I as <- <-. apply Nat.leb_gt in L. lia.
      * eapply IH; [reflexivity | eassumption].
    + intros H. injection H as <- <-. intros tick' error' [I|I].
      * injection I as <- <-. lia.
      * destruct (firstRejected_some rest tick' error' I). congruence.
  - intros H tick' error' [I|I]; [discriminate | eapply IH; eassumption].
Qed.

Lemma allFulfilled_length {A} (tasks : list (Task A)) : forall values,
  allFulfilled tasks = Some values -> length values = length tasks.
Proof.
  induction tasks as [|[t [value|reason|]] rest IH]; intros values; simpl;
    try discriminate.
  - intros H. injection H as <-. reflexivity.
  - destruct (allFulfilled rest) as [l|]; [|discriminate].
    intros H. injection H as <-. simpl. f_equal. now apply IH.
Qed.

Lemma promiseAll_fulfilled {A} (tasks : list (Task A)) values :
  promiseAll tasks = Fulfilled values -> allFulfilled tasks = Some values.
Proof.
  unfold promiseAll. destruct (firstRejected tasks) as [[t e]|];
    [discriminate|].
  destruct (allFulfilled tasks); [congruence | discriminate].
Qed.

(** *** Tasks and their events *)

Lemma fetchVideo_fulfilled generatedVideo w tick entry w' t :
  fetchVideo host generatedVideo w = ((tick, Fulfilled entry), w', t) ->
  encodedFrom host generatedVideo t entry.
Proof.
  unfold fetchVideo, encodedFrom.
  destruct (decodeURIComponent host _) as [url|error]; [|discriminate].
  destruct (fetch host _ w) as [[tick' answer] w1].
  intros Run. injection Run as _ A _ <-.
  unfold afterFetch in A. destruct answer as [res| |]; try discriminate.
  destruct (ok res) eqn:Ok; simpl in A; [|discriminate].
  destruct (blob res) as [body| |] eqn:B; try discriminate.
  unfold bloblToBase64 in A.
  destruct (dataUrl body) as [dataURL|] eqn:D; [|discriminate].
  injection A as <-.
  exists url, res, body, dataURL. auto.
Qed.

Lemma fetchVideo_rejected generatedVideo w tick error w' t :
  fetchVideo host generatedVideo w = ((tick, Rejected error), w', t) ->
  exists e, In e t /\ rejectionOf e = Some error.
Proof.
  unfold fetchVideo.
  destruct (decodeURIComponent host _) as [url|thrown] eqn:D.
  - destruct (fetch host _ w) as [[tick' answer] w1].
    intros Run. injection Run as _ A _ <-.
    eexists. split; [right; left; reflexivity|].
    simpl. now rewrite A.
  - intros Run. injection Run as _ <- _ <-.
    eexists. split; [left; reflexivity|]. reflexivity.
Qed.

Lemma fetchVideo_rejection generatedVideo w task w' t e error :
  fetchVideo host generatedVideo w = (task, w', t) ->
  In e t -> rejectionOf e = Some error ->
  exists tick, task = (tick, Rejected error).
Proof.
  unfold fetchVideo.
  destruct (decodeURIComponent host _) as [url|thrown] eqn:D.
  - destruct (fetch host _ w) as [[tick' answer] w1].
    intros Run. injection Run as <- _ <-.
    intros [<-|[<-|[]]]; simpl; [discriminate|].
    destruct (afterFetch answer); try discriminate.
    intros H. injection H as <-. eauto.
  - intros Run. injection Run as <- _ <-.
    intros [<-|[]]; simpl. intros H. injection H as <-. eauto.
Qed.

Lemma startAll_length videos : forall w tasks w' t,
  startAll host videos w = (tasks, w', t) -> length tasks = length videos.
Proof.
  induction videos as [|generatedVideo rest IH]; intros w tasks w' t; simpl.
  - intros Run. injection Run as <- _ _. reflexivity.
  - destruct (fetchVideo host generatedVideo w) as [[task w1] t1].
    destruct (startAll host rest w1) as [[tasks' w2] t2] eqn:A.
    intros Run. injection Run as <- _ _. simpl. f_equal. eapply IH, A.
Qed.

Lemma startAll_fulfilled videos : forall w tasks w' t entries,
  startAll host videos w = (tasks, w', t) ->
  allFulfilled tasks = Some entries ->
  EncodedInOrder host videos t entries.
Proof.
  induction videos as [|generatedVideo rest IH]; intros w tasks w' t entries;
    simpl.
  - intros Run. injection Run as <- _ <-. simpl.
    intros H. injection H as <-. constructor.
  - destruct (fetchVideo host generatedVideo w) as [[[tick p] w1] t1] eqn:F.
    destruct (startAll host rest w1) as [[tasks' w2] t2] eqn:A.
    intros Run. injection Run as <- _ <-. simpl.
    destruct p as [entry| |]; try discriminate.
    destruct (allFulfilled tasks') as [l|] eqn:L; [|discriminate].
    intros H. injection H as <-.
    constructor.
    + eapply fetchVideo_fulfilled, F.
    + eapply IH; eassumption.
Qed.

Lemma startAll_rejected videos : forall w tasks w' t tick error,
  startAll host videos w = (tasks, w', t) ->
  In (tick, Rejected error) tasks ->
  exists e, In e t /\ rejectionOf e = Some error.
Proof.
  induction videos as [|generatedVideo rest IH];
    intros w tasks w' t tick error; simpl.
  - intros Run. injection Run as <- _ _. intros [].
  - destruct (fetchVideo host generatedVideo w) as [[task w1] t1] eqn:F.
    destruct (startAll host rest w1) as [[tasks' w2] t2] eqn:A.
    intros Run. injection Run as <- _ <-. intros [->|I].
    + apply fetchVideo_rejected in F. destruct F as (e & I & R).
      exists e. split; [apply in_or_app; now left | assumption].
    + destruct (IH _ _ _ _ _ _ A I) as (e & I' & R).
      exists e. split; [apply in_or_app; now right | assumption].
Qed.

Lemma startAll_rejection videos : forall w tasks w' t e error,
  startAll host videos w = (tasks, w', t) ->
  In e t -> rejectionOf e = Some error ->
  exists tick, In (tick, Rejected error) tasks.
Proof.
  induction videos as [|generatedVideo rest IH];
    intros w tasks w' t e error; simpl.
  - intros Run. injection Run as _ _ <-. intros [].
  - destruct (fetchVideo host generatedVideo w) as [[task w1] t1] eqn:F.
    destruct (startAll host rest w1) as [[tasks' w2] t2] eqn:A.
    intros Run. injection Run as <- _ <-. intros I R.
    apply in_app_or in I. destruct I as [I|I].
    + destruct (fetchVideo_rejection _ _ _ _ _ _ _ F I R) as [tick ->].
      exists tick. now left.
    + destruct (IH _ _ _ _ _ _ A I R) as [tick I'].
      exists tick. now right.
Qed.

End WorkflowFacts.


Lemma EncodedInOrder_length {W} (host : Host W) references trace entries :
  EncodedInOrder host references trace entries ->
  length entries = length references.
Proof. induction 1; simpl; congruence. Qed.

Lemma collectVideos_fulfilled {W} (host : Host W) operation w entries w' t :
  collectVideos host operation w = (Some (Fulfilled entries), w', t) ->
  exists references,
    referencesOf operation = Some references /\
    references <> [] /\
    EncodedInOrder host references t entries.
Proof.
  unfold collectVideos, referencesOf, throw.
  destruct (GenAI.response operation) as [response|]; [|discriminate].
  destruct (GenAI.generatedVideos response) as [[|generatedVideo rest]|];
    try discriminate.
  destruct (startAll host (generatedVideo :: rest) w) as [[tasks w1] t1] eqn:A.
  intros Run. injection Run as P <- <-.
  exists (generatedVideo :: rest). split; [reflexivity|]. split; [discriminate|].
  eapply startAll_fulfilled; [exact A|]. now apply promiseAll_fulfilled.
Qed.

(** C1: when the job completed with a list of references and the call
    succeeds, the call returns one entry for each reference (and at
    least one), and the entries are the encoded media of the references
    in the order in which the backend listed them.  This holds for every
    prompt and every count, also for a call without a count. *)
Theorem one_entry_per_reference_in_order
  {W} (host : Host W) fuel prompt count w
  operation w1 t1 references entries w' t :
  submitAndPoll host fuel prompt (orDefault count 1%Z) w =
    (Some (Fulfilled operation), w1, t1) ->
  referencesOf operation = Some references ->
  generateVideoFromText host fuel prompt count w =
    (Some (Fulfilled entries), w', t) ->
  length entries = length references /\
  1 <= length entries /\
  exists retrievals,
    t = t1 ++ retrievals /\
    EncodedInOrder host references retrievals entries.
Proof.
  intros Done Refs Run.
  apply generateVideoFromText_inv in Run.
  destruct Run as (r1 & w1' & t1' & Done' & Cases).
  rewrite Done in Done'. injection Done' as <- <- <-.
  destruct Cases as [(operation' & t2 & E & Collect & ->)|(_ & N & _)];
    [|now destruct (N entries)].
  injection E as <-.
  apply collectVideos_fulfilled in Collect.
  destruct Collect as (references' & Refs' & NonEmpty & Order).
  rewrite Refs in Refs'. injection Refs' as <-.
  pose proof (EncodedInOrder_length _ _ _ _ Order) as L.
  split; [exact L|]. split.
  - rewrite L. destruct references; [congruence | simpl; lia].
  - exists t2. auto.
Qed.

Lemma one_entry_per_reference_in_order_witness :
  exists operation w1 t1 references entries w' t,
    submitAndPoll Script.host 5 "two bears" 2%Z Script.twoVideos =
      (Some (Fulfilled operation), w1, t1) /\
    referencesOf operation = Some references /\
    generateVideoFromText Script.host 5 "two bears" (Some 2%Z)
                          Script.twoVideos =
      (Some (Fulfilled entries), w', t) /\
    length references = 2 /\
    entries = [Some "QUFB"%string; Some "QkJC"%string] /\
    length entries = length references.
Proof.
  do 7 eexists.
  split; [reflexivity|]. split; [reflexivity|]. split; [reflexivity|].
  split; [reflexivity|]. split; [reflexivity|].
  eapply (one_entry_per_reference_in_order
            Script.host 5 "two bears" (Some 2%Z) Script.twoVideos);
    reflexivity.
Defined.

(** C2: when the job completed without a response, without a list of
    videos or with an empty list, the call fails with the error "No
    videos generated" without fetching anything; no list is returned,
    and the classifier turns this error into "Video generation failed:",
    "No videos generated". *)
Theorem no_videos_generated
  {W} (host : Host W) fuel prompt count w operation w1 t1 :
  submitAndPoll host fuel prompt (orDefault count 1%Z) w =
    (Some (Fulfilled operation), w1, t1) ->
  referencesOf operation = None \/ referencesOf operation = Some [] ->
  generateVideoFromText host fuel prompt count w =
    (Some (Rejected (VError "No videos generated")), w1, t1) /\
  parseErrorMessage (VError "No videos generated") =
    ["Video generation failed:"%string; "No videos generated"%string].
Proof.
  intros Done Empty. split; [|reflexivity].
  unfold generateVideoFromText, bind. rewrite Done.
  unfold collectVideos, throw. unfold referencesOf in Empty.
  destruct (GenAI.response operation) as [response|].
  - destruct (GenAI.generatedVideos response) as [[|generatedVideo rest]|];
      try (now rewrite app_nil_r).
    destruct Empty; discriminate.
  - now rewrite app_nil_r.
Qed.

Lemma no_videos_generated_witness :
  submitAndPoll Script.host 1 "a bear" 1%Z Script.noResponse =
    (Some (Fulfilled Script.finishedWithout), Script.noResponse,
     [EvGenerateVideos
        {| GenAI.model := VEO_MODEL_NAME;
           GenAI.prompt := "a bear";
           GenAI.config := {| GenAI.numberOfVideos := 1;
                              GenAI.aspectRatio := "16:9" |} |}
        (Fulfilled Script.finishedWithout)]) /\
  referencesOf Script.finishedWithout = None /\
  fst (fst (generateVideoFromText Script.host 1 "a bear" None
                                  Script.noResponse)) =
    Some (Rejected (VError "No videos generated")).
Proof.
  split; [reflexivity|]. split; [reflexivity|].
  destruct (no_videos_generated Script.host 1 "a bear" None Script.noResponse
              Script.finishedWithout Script.noResponse _
              eq_refl (or_introl eq_refl)) as [Run _].
  rewrite Run. reflexivity.
Defined.

(** C3: in every run, an operation handed to the workflow that is not
    done is followed at once by one turn of the loop (timer, log line,
    re-fetch of this very operation), unless the model stops there for
    lack of fuel; an operation that is done is followed by no timer, no
    log line and no re-fetch, only by the events of the per-video stage;
    no re-fetch is ever made for an operation that is done; and the
    model stops for lack of fuel only after as many re-fetches as it had
    fuel, so that every finite number of turns is covered by some
    fuel. *)
Theorem polling_discipline
  {W} (host : Host W) fuel prompt count w r w' t :
  generateVideoFromText host fuel prompt count w = (r, w', t) ->
  (forall before e after operation,
      t = before ++ e :: after ->
      delivered e = Some operation ->
      afterObserving operation (stopped r) after) /\
  (forall e operation,
      In e t -> polled e = Some operation ->
      GenAI.isDone operation = false) /\
  (stopped r = true -> pollCount t = fuel).
Proof.
  intros Run. apply generateVideoFromText_inv in Run.
  destruct Run as (r1 & w1 & t1 & Submit & Cases).
  apply submitAndPoll_inv in Submit.
  destruct Submit as (params & answer & w0 & _ & _ & _ & Stage).
  assert (Late : stopped r = true -> pollCount t = fuel).
  { destruct Stage as [(first & t0 & -> & Poll & ->)|(_ & -> & _ & _)].
    - destruct Cases as [(operation & t2 & -> & Collect & _)
                        |(_ & _ & S & _ & ->)].
      + apply collectVideos_media in Collect. destruct Collect as [S _].
        congruence.
      + rewrite S. destruct r1; [discriminate|]. intros _.
        apply pollUntilDone_stopped_late in Poll. exact Poll.
    - destruct Cases as [(operation & t2 & _ & Collect & _)
                        |(_ & _ & S & _ & _)].
      + apply collectVideos_media in Collect. destruct Collect as [S _].
        congruence.
      + rewrite S. discriminate. }
  cut ((forall before e after operation,
           t = before ++ e :: after ->
           delivered e = Some operation ->
           afterObserving operation (stopped r) after) /\
       (forall e operation,
           In e t -> polled e = Some operation ->
           GenAI.isDone operation = false)); [tauto|].
  clear Late.
  destruct Stage as [(first & t0 & -> & Poll & ->)|(NoOp & -> & NotF & ->)].
  - assert (D : exists tail,
               t = EvGenerateVideos params (Fulfilled first) :: (t0 ++ tail) /\
               (forall e, In e tail -> isMediaEvent e = true) /\
               ((exists last, r1 = Some (Fulfilled last)) \/ tail = []) /\
               stopped r = stopped r1).
    { destruct Cases as [(operation & t2 & -> & Collect & ->)
                        |(_ & _ & S & _ & ->)].
      - apply collectVideos_media in Collect. destruct Collect as [S M].
        exists t2. repeat split; eauto.
      - exists []. rewrite app_nil_r. repeat split; auto; intros e []. }
    destruct D as (tail & -> & Media & End & ->).
    destruct (pollUntilDone_discipline host fuel _ _ _ _ _ tail Poll Media End)
      as (Head & Splits & Polls).
    split.
    + intros before e after operation E Del.
      destruct before as [|b before]; simpl in E; injection E as <- E.
      * simpl in Del. injection Del as <-. now subst after.
      * eapply Splits; eassumption.
    + intros e operation [<-|I] P; [discriminate|].
      eapply Polls; eassumption.
  - destruct Cases as [(operation & t2 & E & _)|(_ & _ & _ & _ & ->)].
    + now destruct (NotF operation).
    + split.
      * intros before e after operation E Del.
        destruct before as [|b before]; simpl in E; injection E as <- E.
        -- congruence.
        -- now destruct before.
      * intros e operation [<-|[]] P. discriminate.
Qed.

Lemma polling_discipline_witness :
  exists r w' t submission rest,
    generateVideoFromText Script.host 5 "two bears" None Script.twoVideos =
      (r, w', t) /\
    t = submission :: rest /\
    delivered submission = Some Script.running /\
    stopped r = false /\
    pollCount t = 2 /\
    afterObserving Script.running (stopped r) rest.
Proof.
  do 5 eexists.
  split; [reflexivity|]. split; [reflexivity|]. split; [reflexivity|].
  split; [reflexivity|]. split; [reflexivity|].
  eapply (proj1 (polling_discipline Script.host 5 "two bears" None
                                    Script.twoVideos _ _ _ eq_refl) []);
    reflexivity.
Defined.

Lemma collectVideos_rejecting {W} (host : Host W) operation w r w' t e error :
  collectVideos host operation w = (r, w', t) ->
  In e t -> rejectionOf e = Some error ->
  exists reason,
    r = Some (Rejected reason) /\
    exists e', In e' t /\ rejectionOf e' = Some reason.
Proof.
  unfold collectVideos, throw.
  destruct (GenAI.response operation) as [response|].
  - destruct (GenAI.generatedVideos response) as [[|generatedVideo rest]|].
    + intros Run. injection Run as _ _ <-. intros [].
    + destruct (startAll host (generatedVideo :: rest) w)
        as [[tasks w1] t1] eqn:A.
      intros Run. injection Run as <- _ <-. intros I R.
      destruct (startAll_rejection host _ _ _ _ _ _ _ A I R) as [tick T].
      destruct (firstRejected_some _ _ _ T) as [[tick' reason] F].
      exists reason. unfold promiseAll. rewrite F. split; [reflexivity|].
      apply firstRejected_in in F.
      eapply startAll_rejected; eassumption.
    + intros Run. injection Run as _ _ <-. intros [].
  - intros Run. injection Run as _ _ <-. intros [].
Qed.

(** C4: a fetch answered with a status that is not a success rejects its
    task with an error whose message carries the status and the status
    text, and the whole call then fails: it is rejected, so no list, of
    whatever part of the media, is returned.  The error of the call is
    the rejection of one of the tasks, hence this very error as soon as
    no task is rejected for another reason. *)
Theorem failed_fetch_fails_the_call
  {W} (host : Host W) fuel prompt count w r w' t url res :
  generateVideoFromText host fuel prompt count w = (r, w', t) ->
  In (EvFetch url (Fulfilled res)) t ->
  ok res = false ->
  let failure :=
    VError ("Failed to fetch video: " ++ showNumber (status res) ++ " "
            ++ statusText res)%string in
  rejectionOf (EvFetch url (Fulfilled res)) = Some failure /\
  exists reason,
    r = Some (Rejected reason) /\
    (exists e, In e t /\ rejectionOf e = Some reason) /\
    ((forall e other, In e t -> rejectionOf e = Some other -> other = failure) ->
     reason = failure).
Proof.
  intros Run I NotOk failure.
  assert (R : rejectionOf (EvFetch url (Fulfilled res)) = Some failure)
    by (simpl; rewrite NotOk; reflexivity).
  split; [exact R|].
  apply generateVideoFromText_inv in Run.
  destruct Run as (r1 & w1 & t1 & Submit & Cases).
  assert (Here : forall e, In e t1 -> isMediaEvent e = false)
    by (intros e; eapply submitAndPoll_no_media; eassumption).
  destruct Cases as [(operation & t2 & -> & Collect & ->)|(_ & _ & _ & _ & ->)].
  - apply in_app_or in I. destruct I as [I|I];
      [apply Here in I; discriminate|].
    destruct (collectVideos_rejecting host _ _ _ _ _ _ _ Collect I R)
      as (reason & -> & e' & I' & R').
    exists reason. split; [reflexivity|]. split.
    + exists e'. split; [apply in_or_app; now right | assumption].
    + intros Only. eapply Only; [apply in_or_app; right; exact I' | exact R'].
  - apply Here in I. discriminate.
Qed.

Lemma failed_fetch_fails_the_call_witness :
  exists w' t,
    generateVideoFromText Script.host 5 "two bears" (Some 2%Z)
                          Script.secondForbidden =
      (Some (Rejected (VError "Failed to fetch video: 403 Forbidden")), w', t) /\
    In (EvFetch "https://v/b?x=2&key=KEY" (Fulfilled Script.forbidden)) t /\
    ok Script.forbidden = false /\
    rejectionOf (EvFetch "https://v/b?x=2&key=KEY" (Fulfilled Script.forbidden)) =
      Some (VError "Failed to fetch video: 403 Forbidden").
Proof.
  do 2 eexists.
  split; [reflexivity|].
  assert (I : In (EvFetch "https://v/b?x=2&key=KEY" (Fulfilled Script.forbidden))
                 (snd (generateVideoFromText Script.host 5 "two bears"
                         (Some 2%Z) Script.secondForbidden)))
    by (simpl; tauto).
  split; [exact I|]. split; [reflexivity|].
  exact (proj1 (failed_fetch_fails_the_call
                  Script.host 5 "two bears" (Some 2%Z) Script.secondForbidden
                  _ _ _ _ Script.forbidden eq_refl I eq_refl)).
Defined.

(* ================================================================== *)
(** ** The callers *)

Lemma generateVideoFromText_submits
  {W} (host : Host W) fuel prompt count w r w' t :
  generateVideoFromText host fuel prompt count w = (r, w', t) ->
  exists params answer rest,
    t = EvGenerateVideos params answer :: rest /\
    GenAI.prompt params = prompt /\
    GenAI.numberOfVideos (GenAI.config params) = orDefault count 1%Z.
Proof.
  intros Run. apply generateVideoFromText_inv in Run.
  destruct Run as (r1 & w1 & t1 & Submit & Cases).
  apply submitAndPoll_inv in Submit.
  destruct Submit as (params & answer & w0 & P & N & _ & Stage).
  exists params, answer.
  assert (T : exists t0, t1 = EvGenerateVideos params answer :: t0).
  { destruct Stage as [(first & t0 & -> & _ & ->)|(_ & _ & _ & ->)]; eauto. }
  destruct T as [t0 ->].
  destruct Cases as [(operation & t2 & _ & _ & ->)|(_ & _ & _ & _ & ->)];
    eexists; (split; [reflexivity | auto]).
Qed.

(** C10: both callers call [generateVideoFromText] without a count, so
    that the request they submit asks for one video; and when the call
    returns a list, they add exactly one video, built from the first
    entry of the list, whatever follows it in the list. *)
Theorem callers_use_the_first_entry_only {W} (host : Host W) fuel :
  (forall originalVideo s w,
      exists params answer rest,
        events (handleSaveEdit host fuel originalVideo s w) =
          EvConsoleLog ["Generating video..."%string; description originalVideo]
          :: EvGenerateVideos params answer :: rest /\
        GenAI.numberOfVideos (GenAI.config params) = 1%Z) /\
  (forall s w,
      JsString.truthy (JsString.trim (promptInput s)) = true ->
      exists params answer rest,
        events (handleGenerateNewVideo host fuel s w) =
          EvConsoleLog ["Generating video from new prompt..."%string;
                        promptInput s]
          :: EvGenerateVideos params answer :: rest /\
        GenAI.numberOfVideos (GenAI.config params) = 1%Z) /\
  (forall originalVideo s w first others w1 t,
      generateVideoFromText host fuel (description originalVideo) None w =
        (Some (Fulfilled (first :: others)), w1, t) ->
      let newVideo :=
        {| id := fst (randomUUID host w1);
           title := ("Remix of " ++ quote ++ title originalVideo ++ quote)%string;
           description := description originalVideo;
           videoUrl := ("data:video/mp4;base64," ++ interpolate first)%string |} in
      after (handleSaveEdit host fuel originalVideo s w) =
        {| videos := newVideo :: videos s;
           playingVideo := Some newVideo;
           editingVideo := None;
           isSaving := false;
           generationError := None;
           promptInput := promptInput s;
           generatedVideosCount := generatedVideosCount s + 1 |}) /\
  (forall s w first others w1 t,
      JsString.truthy (JsString.trim (promptInput s)) = true ->
      generateVideoFromText host fuel (promptInput s) None w =
        (Some (Fulfilled (first :: others)), w1, t) ->
      exists newVideo,
        videoUrl newVideo =
          ("data:video/mp4;base64," ++ interpolate first)%string /\
        description newVideo = promptInput s /\
        after (handleGenerateNewVideo host fuel s w) =
          {| videos := newVideo :: videos s;
             playingVideo := Some newVideo;
             editingVideo := editingVideo s;
             isSaving := false;
             generationError := None;
             promptInput := "";
             generatedVideosCount := generatedVideosCount s + 1 |}).
Proof.
  split; [|split; [|split]].
  - intros originalVideo s w. unfold handleSaveEdit.
    destruct (generateVideoFromText host fuel (description originalVideo)
                                    None w) as [[r w1] t] eqn:Run.
    apply generateVideoFromText_submits in Run.
    destruct Run as (params & answer & rest & -> & _ & N).
    exists params, answer.
    destruct r as [[[|first others]|error|]|];
      try destruct (randomUUID host w1) as [uuid w2];
      eexists; (split; [reflexivity | exact N]).
  - intros s w NotBlank. unfold handleGenerateNewVideo. rewrite NotBlank.
    simpl negb. cbv iota.
    destruct (generateVideoFromText host fuel (promptInput s) None w)
      as [[r w1] t] eqn:Run.
    apply generateVideoFromText_submits in Run.
    destruct Run as (params & answer & rest & -> & _ & N).
    exists params, answer.
    destruct r as [[[|first others]|error|]|];
      try destruct (randomUUID host w1) as [uuid w2];
      eexists; (split; [reflexivity | exact N]).
  - intros originalVideo s w first others w1 t Run newVideo.
    unfold handleSaveEdit. rewrite Run.
    subst newVideo. destruct (randomUUID host w1) as [uuid w2]. reflexivity.
  - intros s w first others w1 t NotBlank Run.
    unfold handleGenerateNewVideo. rewrite NotBlank, Run.
    simpl negb. cbv iota.
    destruct (randomUUID host w1) as [uuid w2].
    eexists. split; [|split]; [| |reflexivity]; reflexivity.
Qed.

Lemma callers_use_the_first_entry_only_witness :
  JsString.truthy (JsString.trim (promptInput Script.emptyApp)) = true /\
  (exists w1 t,
      generateVideoFromText Script.host 5 (promptInput Script.emptyApp) None
                            Script.twoVideos =
        (Some (Fulfilled [Some "QUFB"%string; Some "QkJC"%string]), w1, t)) /\
  exists newVideo,
    videoUrl newVideo = "data:video/mp4;base64,QUFB"%string /\
    description newVideo = promptInput Script.emptyApp /\
    after (handleGenerateNewVideo Script.host 5 Script.emptyApp
                                  Script.twoVideos) =
      {| videos := [newVideo];
         playingVideo := Some newVideo;
         editingVideo := None;
         isSaving := false;
         generationError := None;
         promptInput := "";
         generatedVideosCount := 1 |}.
Proof.
  split; [reflexivity|]. split; [do 2 eexists; reflexivity|].
  exact (proj2 (proj2 (proj2 (callers_use_the_first_entry_only Script.host 5)))
           Script.emptyApp Script.twoVideos (Some "QUFB"%string)
           [Some "QkJC"%string] _ _ eq_refl eq_refl).
Defined.

(** The same for a remix: two entries come back, the first one is
    used. *)
Example remix_uses_the_first_entry :
  map videoUrl
      (videos (after (handleSaveEdit Script.host 5 Script.bearVideo
                                     Script.emptyApp Script.twoVideos))) =
    ["data:video/mp4;base64,QUFB"%string] /\
  map title
      (videos (after (handleSaveEdit Script.host 5 Script.bearVideo
                                     Script.emptyApp Script.twoVideos))) =
    [("Remix of " ++ quote ++ "Bear" ++ quote)%string].
Proof. split; reflexivity. Qed.

(* ================================================================== *)
(** * Further properties *)

(** ** The classifier, by occurrence *)

Lemma occursIn_includes pattern message :
  occursIn pattern message <-> JsString.includes message pattern = true.
Proof. unfold occursIn. symmetry. apply includes_occurrence. Qed.

Lemma not_occursIn_includes pattern message :
  ~ occursIn pattern message -> JsString.includes message pattern = false.
Proof.
  intros N. destruct (JsString.includes message pattern) eqn:I; [|reflexivity].
  exfalso. apply N. now apply occursIn_includes.
Qed.

(** X1: the classifier finds a pattern wherever it stands in the
    message, and of several patterns the first of the table wins: "API
    key not valid", then "permission denied", then "User location is not
    supported", then "Billing account not found"; a message with none
    of them is reported as it is. *)
Theorem classifier_first_occurrence_wins (message : string) :
  let answer := parseErrorMessage (VError message) in
  (occursIn "API key not valid" message ->
   answer = ["Your API key is not valid.";
             "Please check your API key and try again."]%string) /\
  (~ occursIn "API key not valid" message ->
   occursIn "permission denied" message ->
   answer = ["Permission Denied.";
             "This model may require a specific tier or project configuration. Please check your project settings."]%string) /\
  (~ occursIn "API key not valid" message ->
   ~ occursIn "permission denied" message ->
   occursIn "User location is not supported" message ->
   answer = ["Location Not Supported.";
             "The model is not available in your current location."]%string) /\
  (~ occursIn "API key not valid" message ->
   ~ occursIn "permission denied" message ->
   ~ occursIn "User location is not supported" message ->
   occursIn "Billing account not found" message ->
   answer = ["Billing Issue.";
             "A valid billing account is required. Please select a Cloud Project with billing enabled."]%string) /\
  (~ occursIn "API key not valid" message ->
   ~ occursIn "permission denied" message ->
   ~ occursIn "User location is not supported" message ->
   ~ occursIn "Billing account not found" message ->
   answer = ["Video generation failed:"%string; message]).
Proof.
  cbv zeta. unfold parseErrorMessage.
  repeat split; intros;
    repeat match goal with
           | H : occursIn _ _ |- _ => apply occursIn_includes in H; rewrite H
           | H : ~ occursIn _ _ |- _ =>
               apply not_occursIn_includes in H; rewrite H
           end; reflexivity.
Qed.

Lemma classifier_first_occurrence_wins_witness :
  let message :=
    ("403 permission denied (API key not valid for project 7)")%string in
  occursIn "API key not valid" message /\
  occursIn "permission denied" message /\
  parseErrorMessage (VError message) =
    ["Your API key is not valid.";
     "Please check your API key and try again."]%string.
Proof.
  cbv zeta.
  assert (Key : occursIn "API key not valid"
                  "403 permission denied (API key not valid for project 7)")
    by (exists "403 permission denied ("%string, " for project 7)"%string;
        reflexivity).
  split; [exact Key|]. split.
  - exists "403 "%string, " (API key not valid for project 7)"%string.
    reflexivity.
  - exact (proj1 (classifier_first_occurrence_wins
                    "403 permission denied (API key not valid for project 7)")
             Key).
Defined.

(* ================================================================== *)
(** ** The workflow: what it asks of the host *)

Section Readings.

Lemma waited_app t1 t2 : waited (t1 ++ t2) = (waited t1 + waited t2)%Z.
Proof. induction t1 as [|[] t1 IH]; simpl; lia. Qed.

Lemma pollCount_app t1 t2 : pollCount (t1 ++ t2) = pollCount t1 + pollCount t2.
Proof. unfold pollCount. now rewrite filter_app, length_app. Qed.

Lemma submissions_app t1 t2 :
  submissions (t1 ++ t2) = submissions t1 ++ submissions t2.
Proof. induction t1 as [|[] t1 IH]; simpl; congruence. Qed.

Lemma decodedUris_app t1 t2 :
  decodedUris (t1 ++ t2) = decodedUris t1 ++ decodedUris t2.
Proof. induction t1 as [|[] t1 IH]; simpl; congruence. Qed.

Lemma fetchedUrls_app t1 t2 :
  fetchedUrls (t1 ++ t2) = fetchedUrls t1 ++ fetchedUrls t2.
Proof. induction t1 as [|[] t1 IH]; simpl; congruence. Qed.

(** A trace of the per-video stage holds no timer, no re-fetch and no
    submission. *)
Lemma media_trace_readings t :
  (forall e, In e t -> isMediaEvent e = true) ->
  waited t = 0%Z /\ pollCount t = 0 /\ submissions t = [].
Proof.
  induction t as [|e t IH]; intros M; [now repeat split|].
  destruct IH as (Wt & P & S); [intros e' I; apply M; now right|].
  assert (Me : isMediaEvent e = true) by (apply M; now left).
  unfold pollCount in *. destruct e; try discriminate; simpl; auto.
Qed.

(** A trace without events of the per-video stage decodes and fetches
    nothing. *)
Lemma no_media_trace_readings t :
  (forall e, In e t -> isMediaEvent e = false) ->
  decodedUris t = [] /\ fetchedUrls t = [].
Proof.
  induction t as [|e t IH]; intros M; [now split|].
  destruct IH as (D & F); [intros e' I; apply M; now right|].
  assert (Me : isMediaEvent e = false) by (apply M; now left).
  destruct e; try discriminate; simpl; auto.
Qed.

Context {W : Type} (host : Host W).

Lemma pollUntilDone_readings fuel : forall operation w r w' t,
  pollUntilDone host fuel operation w = (r, w', t) ->
  submissions t = [] /\ waited t = (10000 * Z.of_nat (pollCount t))%Z.
Proof.
  induction fuel as [|fuel IH]; intros operation w r w' t;
    destruct (GenAI.isDone operation) eqn:D.
  - rewrite pollUntilDone_done by assumption.
    intros Run. injection Run as _ _ <-. now split.
  - rewrite pollUntilDone_stop by assumption.
    intros Run. injection Run as _ _ <-. now split.
  - rewrite pollUntilDone_done by assumption.
    intros Run. injection Run as _ _ <-. now split.
  - rewrite pollUntilDone_step by assumption.
    destruct (getVideosOperation host operation w) as [[next|error|] w1].
    + destruct (pollUntilDone host fuel next w1) as [[r2 w2] t2] eqn:E.
      intros Run.
      assert (T : t = pollRound operation (Fulfilled next) ++ t2)
        by congruence.
      subst t. clear Run.
      destruct (IH _ _ _ _ _ E) as [S Wt].
      rewrite submissions_app, waited_app, pollCount_app, S, Wt.
      split; [reflexivity|].
      change (waited (pollRound operation (Fulfilled next))) with 10000%Z.
      change (pollCount (pollRound operation (Fulfilled next))) with 1.
      lia.
    + intros Run. injection Run as _ _ <-. now split.
    + intros Run. injection Run as _ _ <-. now split.
Qed.

(** The first stage: one submission, with the model, the prompt, the
    count and the aspect ratio of the source, and then the loop. *)
Lemma submitAndPoll_readings fuel prompt n w r w' t :
  submitAndPoll host fuel prompt n w = (r, w', t) ->
  submissions t =
    [{| GenAI.model := "veo-2.0-generate-001";
        GenAI.prompt := prompt;
        GenAI.config := {| GenAI.numberOfVideos := n;
                           GenAI.aspectRatio := "16:9" |} |}] /\
  waited t = (10000 * Z.of_nat (pollCount t))%Z /\
  (exists params answer rest, t = EvGenerateVideos params answer :: rest).
Proof.
  unfold submitAndPoll, bind, await.
  match goal with
  | |- context [generateVideos host ?p w] => set (params := p)
  end.
  destruct (generateVideos host params w) as [[first|error|] w0].
  - destruct (pollUntilDone host fuel first w0) as [[r0 w1] t0] eqn:P.
    intros Run.
    assert (T : t = [EvGenerateVideos params (Fulfilled first)] ++ t0)
      by congruence.
    subst t. clear Run.
    destruct (pollUntilDone_readings _ _ _ _ _ _ P) as [S Wt].
    rewrite submissions_app, waited_app, pollCount_app, S, Wt.
    repeat split; simpl; eauto.
  - intros Run. injection Run as _ _ <-. repeat split; eauto.
  - intros Run. injection Run as _ _ <-. repeat split; eauto.
Qed.

Lemma startAll_readings videos : forall w tasks w' t,
  startAll host videos w = (tasks, w', t) ->
  decodedUris t = map (fun v => GenAI.uri (GenAI.video v)) videos /\
  fetchedUrls t = requestUrls host videos.
Proof.
  induction videos as [|generatedVideo rest IH]; intros w tasks w' t; simpl.
  - intros Run. injection Run as _ _ <-. now split.
  - unfold fetchVideo.
    destruct (decodeURIComponent host (GenAI.uri (GenAI.video generatedVideo)))
      as [url|error].
    + destruct (fetch host _ w) as [[tick answer] w1].
      destruct (startAll host rest w1) as [[tasks' w2] t2] eqn:A.
      intros Run. injection Run as _ _ <-.
      destruct (IH _ _ _ _ A) as [D F]. simpl. split; congruence.
    + destruct (startAll host rest w) as [[tasks' w2] t2] eqn:A.
      intros Run. injection Run as _ _ <-.
      destruct (IH _ _ _ _ A) as [D F]. simpl. split; congruence.
Qed.

End Readings.

Lemma generateVideoFromText_submissions
  {W} (host : Host W) fuel prompt count w r w' t :
  generateVideoFromText host fuel prompt count w = (r, w', t) ->
  submissions t =
    [{| GenAI.model := "veo-2.0-generate-001";
        GenAI.prompt := prompt;
        GenAI.config := {| GenAI.numberOfVideos := orDefault count 1%Z;
                           GenAI.aspectRatio := "16:9" |} |}] /\
  exists params answer rest, t = EvGenerateVideos params answer :: rest.
Proof.
  intros Run.
  apply generateVideoFromText_inv in Run.
  destruct Run as (r1 & w1 & t1 & Submit & Cases).
  apply submitAndPoll_readings in Submit.
  destruct Submit as (S & _ & params & answer & rest & T).
  destruct Cases as [(operation & t2 & _ & Collect & ->)|(_ & _ & _ & _ & ->)].
  - apply collectVideos_media in Collect. destruct Collect as [_ M].
    apply media_trace_readings in M. destruct M as (_ & _ & S2).
    rewrite submissions_app, S, S2. split; [reflexivity|].
    rewrite T. simpl. eauto.
  - split; [exact S | eauto].
Qed.

(** X2: every call submits exactly one job, as its first act, with the
    model "veo-2.0-generate-001", the prompt as given, the count given
    (1 without one) and the aspect ratio "16:9"; whatever happens
    afterwards, it never submits again. *)
Theorem one_submission_per_call
  {W} (host : Host W) fuel prompt count w :
  let '(_, _, t) := generateVideoFromText host fuel prompt count w in
  submissions t =
    [{| GenAI.model := "veo-2.0-generate-001";
        GenAI.prompt := prompt;
        GenAI.config := {| GenAI.numberOfVideos := orDefault count 1%Z;
                           GenAI.aspectRatio := "16:9" |} |}] /\
  exists params answer rest, t = EvGenerateVideos params answer :: rest.
Proof.
  destruct (generateVideoFromText host fuel prompt count w)
    as [[r w'] t] eqn:Run.
  eapply generateVideoFromText_submissions, Run.
Qed.

(** X3: the call waits 10 seconds before each status check and not
    otherwise: the timers of a run add up to 10000 ms times the number
    of status checks. *)
Theorem ten_seconds_per_status_check
  {W} (host : Host W) fuel prompt count w :
  let '(_, _, t) := generateVideoFromText host fuel prompt count w in
  waited t = (10000 * Z.of_nat (pollCount t))%Z.
Proof.
  destruct (generateVideoFromText host fuel prompt count w)
    as [[r w'] t] eqn:Run.
  apply generateVideoFromText_inv in Run.
  destruct Run as (r1 & w1 & t1 & Submit & Cases).
  apply submitAndPoll_readings in Submit.
  destruct Submit as (_ & Wt & _).
  destruct Cases as [(operation & t2 & _ & Collect & ->)|(_ & _ & _ & _ & ->)].
  - apply collectVideos_media in Collect. destruct Collect as [_ M].
    apply media_trace_readings in M. destruct M as (W2 & P2 & _).
    rewrite waited_app, pollCount_app, Wt, W2, P2. lia.
  - exact Wt.
Qed.

Section Stages.

Context {W : Type} (host : Host W).

Lemma generateVideoFromText_early fuel prompt count w r1 w1 t1 :
  submitAndPoll host fuel prompt (orDefault count 1%Z) w = (r1, w1, t1) ->
  (forall operation, r1 <> Some (Fulfilled operation)) ->
  exists r,
    generateVideoFromText host fuel prompt count w = (r, w1, t1) /\
    (forall error, r1 = Some (Rejected error) -> r = Some (Rejected error)) /\
    (r1 = Some Pending -> r = Some Pending) /\
    (r1 = None -> r = None).
Proof.
  intros Submit N. unfold generateVideoFromText, bind. rewrite Submit.
  destruct r1 as [[operation|error|]|].
  - now destruct (N operation).
  - eexists. split; [reflexivity|]. repeat split; congruence.
  - eexists. split; [reflexivity|]. repeat split; congruence.
  - eexists. split; [reflexivity|]. repeat split; congruence.
Qed.

Lemma generateVideoFromText_late fuel prompt count w operation w1 t1 :
  submitAndPoll host fuel prompt (orDefault count 1%Z) w =
    (Some (Fulfilled operation), w1, t1) ->
  generateVideoFromText host fuel prompt count w =
    (let '(r, w', t2) := collectVideos host operation w1 in (r, w', t1 ++ t2)).
Proof.
  intros Submit. unfold generateVideoFromText, bind. now rewrite Submit.
Qed.

Lemma collectVideos_references operation references w :
  referencesOf operation = Some references ->
  collectVideos host operation w =
    match references with
    | [] => (Some (Rejected (VError "No videos generated")), w, [])
    | _ => let '(tasks, w', t) := startAll host references w in
           (Some (promiseAll tasks), w', t)
    end.
Proof.
  unfold referencesOf, collectVideos, throw.
  destruct (GenAI.response operation) as [response|]; [|discriminate].
  intros ->. now destruct references.
Qed.

Lemma collectVideos_started operation w r w' t :
  collectVideos host operation w = (r, w', t) ->
  t <> [] ->
  exists references tasks,
    referencesOf operation = Some references /\
    startAll host references w = (tasks, w', t) /\
    r = Some (promiseAll tasks).
Proof.
  unfold collectVideos, referencesOf, throw.
  destruct (GenAI.response operation) as [response|].
  - destruct (GenAI.generatedVideos response) as [[|generatedVideo rest]|].
    + intros Run. injection Run as _ _ <-. congruence.
    + destruct (startAll host (generatedVideo :: rest) w)
        as [[tasks w1] t1] eqn:A.
      intros Run _. injection Run as <- <- <-. eauto.
    + intros Run. injection Run as _ _ <-. congruence.
  - intros Run. injection Run as _ _ <-. congruence.
Qed.

(** *** Tasks that never settle *)

Lemma fetchVideo_unsettled generatedVideo w task w' t e :
  fetchVideo host generatedVideo w = (task, w', t) ->
  In e t -> neverSettles e = true ->
  exists tick, task = (tick, Pending).
Proof.
  unfold fetchVideo.
  destruct (decodeURIComponent host _) as [url|thrown].
  - destruct (fetch host _ w) as [[tick' answer] w1].
    intros Run. injection Run as <- _ <-.
    intros [<-|[<-|[]]]; simpl; [discriminate|].
    destruct (afterFetch answer); try discriminate. eauto.
  - intros Run. injection Run as <- _ <-.
    intros [<-|[]]; simpl. discriminate.
Qed.

Lemma startAll_unsettled videos : forall w tasks w' t e,
  startAll host videos w = (tasks, w', t) ->
  In e t -> neverSettles e = true ->
  exists tick, In (tick, Pending) tasks.
Proof.
  induction videos as [|generatedVideo rest IH]; intros w tasks w' t e; simpl.
  - intros Run. injection Run as _ _ <-. intros [].
  - destruct (fetchVideo host generatedVideo w) as [[task w1] t1] eqn:F.
    destruct (startAll host rest w1) as [[tasks' w2] t2] eqn:A.
    intros Run. injection Run as <- _ <-. intros I N.
    apply in_app_or in I. destruct I as [I|I].
    + destruct (fetchVideo_unsettled _ _ _ _ _ _ F I N) as [tick ->].
      exists tick. now left.
    + destruct (IH _ _ _ _ _ A I N) as [tick I'].
      exists tick. now right.
Qed.

Lemma allFulfilled_in {A} (tasks : list (Task A)) values tick p :
  allFulfilled tasks = Some values ->
  In (tick, p) tasks -> exists a, p = Fulfilled a.
Proof.
  revert values.
  induction tasks as [|[t [value|reason|]] rest IH]; intros values; simpl;
    try discriminate.
  - intros _ [].
  - destruct (allFulfilled rest) as [l|] eqn:L; [|discriminate].
    intros _ [I|I].
    + injection I as _ <-. eauto.
    + eapply IH; [reflexivity | exact I].
Qed.

Lemma firstRejected_none {A} (tasks : list (Task A)) :
  (forall tick error, ~ In (tick, Rejected error) tasks) ->
  firstRejected tasks = None.
Proof.
  intros N. destruct (firstRejected tasks) as [[tick error]|] eqn:F;
    [|reflexivity].
  apply firstRejected_in in F. now destruct (N tick error).
Qed.

(** *** Errors of the SDK *)

Lemma pollUntilDone_sdk_rejection fuel : forall operation w r w' t e error,
  pollUntilDone host fuel operation w = (r, w', t) ->
  In e t -> sdkRejection e = Some error ->
  r = Some (Rejected error) /\ exists before, t = before ++ [e].
Proof.
  induction fuel as [|fuel IH]; intros operation w r w' t e error;
    destruct (GenAI.isDone operation) eqn:D.
  - rewrite pollUntilDone_done by assumption.
    intros Run. injection Run as _ _ <-. intros [].
  - rewrite pollUntilDone_stop by assumption.
    intros Run. injection Run as _ _ <-. intros [].
  - rewrite pollUntilDone_done by assumption.
    intros Run. injection Run as _ _ <-. intros [].
  - rewrite pollUntilDone_step by assumption.
    destruct (getVideosOperation host operation w) as [[next|thrown|] w1].
    + destruct (pollUntilDone host fuel next w1) as [[r2 w2] t2] eqn:E.
      intros Run.
      assert (T : t = pollRound operation (Fulfilled next) ++ t2)
        by congruence.
      assert (R : r = r2) by congruence.
      subst t r. clear Run. intros I S.
      apply in_app_or in I. destruct I as [I|I].
      * simpl in I. destruct I as [<-|[<-|[<-|[]]]]; discriminate.
      * destruct (IH _ _ _ _ _ _ _ E I S) as [-> [before ->]].
        split; [reflexivity|].
        exists (pollRound operation (Fulfilled next) ++ before).
        now rewrite app_assoc.
    + intros Run. injection Run as <- _ <-.
      intros [<-|[<-|[<-|[]]]] S; try discriminate.
      simpl in S. injection S as <-. split; [reflexivity|].
      now exists [EvSetTimeout 10000; EvConsoleLog ["...Generating..."%string]].
    + intros Run. injection Run as <- _ <-.
      intros [<-|[<-|[<-|[]]]] S; discriminate.
Qed.

Lemma media_event_no_sdk_rejection e :
  isMediaEvent e = true -> sdkRejection e = None.
Proof. destruct e; simpl; try discriminate; auto. Qed.

End Stages.

(** X4: once the job is done with a list of references, every reference
    has its URI decoded, in the order of the list, and every reference
    whose URI decodes is fetched once, in that order, at the decoded URI
    with "&key=" and the key appended; a reference that fails does not
    keep the later ones from being fetched. *)
Theorem every_reference_is_retrieved
  {W} (host : Host W) fuel prompt count w operation w1 t1 references r w' t :
  submitAndPoll host fuel prompt (orDefault count 1%Z) w =
    (Some (Fulfilled operation), w1, t1) ->
  referencesOf operation = Some references ->
  generateVideoFromText host fuel prompt count w = (r, w', t) ->
  decodedUris t = map (fun v => GenAI.uri (GenAI.video v)) references /\
  fetchedUrls t = requestUrls host references.
Proof.
  intros Submit Refs Run.
  rewrite (generateVideoFromText_late host _ _ _ _ _ _ _ Submit) in Run.
  rewrite (collectVideos_references host _ _ _ Refs) in Run.
  assert (N : decodedUris t1 = [] /\ fetchedUrls t1 = []).
  { apply no_media_trace_readings. intros e.
    eapply submitAndPoll_no_media; eassumption. }
  destruct N as [D F].
  destruct references as [|generatedVideo rest].
  - injection Run as _ _ <-. rewrite app_nil_r. now split.
  - destruct (startAll host (generatedVideo :: rest) w1)
      as [[tasks w2] t2] eqn:A.
    injection Run as _ _ <-.
    apply startAll_readings in A. destruct A as [D2 F2].
    rewrite decodedUris_app, fetchedUrls_app, D, F, D2, F2. now split.
Qed.

Lemma every_reference_is_retrieved_witness :
  exists operation w1 t1 references r w' t,
    submitAndPoll Script.host 5 "two bears" 2%Z Demo.firstMalformed =
      (Some (Fulfilled operation), w1, t1) /\
    referencesOf operation = Some references /\
    generateVideoFromText Script.host 5 "two bears" (Some 2%Z)
                          Demo.firstMalformed = (r, w', t) /\
    r = Some (Rejected (VError "URI malformed")) /\
    decodedUris t = ["https://v/a%"; "https://v/b?x=2"]%string /\
    fetchedUrls t = ["https://v/b?x=2&key=KEY"%string] /\
    fetchedUrls t = requestUrls Script.host references.
Proof.
  do 7 eexists.
  split; [reflexivity|]. split; [reflexivity|]. split; [reflexivity|].
  split; [reflexivity|]. split; [reflexivity|]. split; [reflexivity|].
  eapply (every_reference_is_retrieved
            Script.host 5 "two bears" (Some 2%Z) Demo.firstMalformed);
    reflexivity.
Defined.

(** X5: a per-video task that never settles (a fetch or a body that
    stays pending, or a body that the reader cannot read, for which
    [bloblToBase64] has no way to reject) makes the whole call hang, as
    long as no task is rejected: the call is neither fulfilled nor
    rejected. *)
Theorem unsettled_task_hangs_the_call
  {W} (host : Host W) fuel prompt count w r w' t e :
  generateVideoFromText host fuel prompt count w = (r, w', t) ->
  In e t ->
  neverSettles e = true ->
  (forall e', In e' t -> rejectionOf e' = None) ->
  r = Some Pending.
Proof.
  intros Run I N Clean.
  destruct (submitAndPoll host fuel prompt (orDefault count 1%Z) w)
    as [[r1 w1] t1] eqn:Submit.
  assert (Here : forall e', In e' t1 -> isMediaEvent e' = false)
    by (intros e'; eapply submitAndPoll_no_media; eassumption).
  assert (Me : isMediaEvent e = true)
    by (destruct e; try discriminate; reflexivity).
  destruct r1 as [[operation|error|]|].
  - rewrite (generateVideoFromText_late host _ _ _ _ _ _ _ Submit) in Run.
    destruct (collectVideos host operation w1) as [[r2 w2] t2] eqn:Collect.
    injection Run as <- _ <-.
    apply in_app_or in I. destruct I as [I|I];
      [apply Here in I; congruence|].
    destruct (collectVideos_started host _ _ _ _ _ Collect)
      as (references & tasks & _ & A & ->);
      [intros ->; destruct I|].
    destruct (startAll_unsettled host _ _ _ _ _ _ A I N) as [tick P].
    unfold promiseAll. rewrite firstRejected_none.
    + destruct (allFulfilled tasks) as [values|] eqn:F; [|reflexivity].
      destruct (allFulfilled_in _ _ _ _ F P) as [a Contra]. discriminate.
    + intros tick' error T.
      destruct (startAll_rejected host _ _ _ _ _ _ _ A T) as (e' & I' & R).
      rewrite Clean in R; [discriminate | apply in_or_app; now right].
  - destruct (generateVideoFromText_early host _ _ _ _ _ _ _ Submit)
      as (r' & Run' & _); [discriminate|].
    rewrite Run' in Run. injection Run as _ _ <-.
    apply Here in I. congruence.
  - destruct (generateVideoFromText_early host _ _ _ _ _ _ _ Submit)
      as (r' & Run' & _); [discriminate|].
    rewrite Run' in Run. injection Run as _ _ <-.
    apply Here in I. congruence.
  - destruct (generateVideoFromText_early host _ _ _ _ _ _ _ Submit)
      as (r' & Run' & _); [discriminate|].
    rewrite Run' in Run. injection Run as _ _ <-.
    apply Here in I. congruence.
Qed.

Lemma unsettled_task_hangs_the_call_witness :
  exists r w' t,
    generateVideoFromText Script.host 5 "two bears" (Some 2%Z)
                          Demo.secondUnreadable = (r, w', t) /\
    In (EvFetch "https://v/b?x=2&key=KEY" (Fulfilled Demo.unreadable)) t /\
    neverSettles (EvFetch "https://v/b?x=2&key=KEY"
                          (Fulfilled Demo.unreadable)) = true /\
    (forall e', In e' t -> rejectionOf e' = None) /\
    r = Some Pending.
Proof.
  do 3 eexists.
  split; [vm_compute; reflexivity|].
  match goal with
  | |- In ?e ?t /\ _ =>
      assert (I : In e t) by (simpl; tauto);
      assert (Clean : forall e', In e' t -> rejectionOf e' = None)
  end.
  { simpl. intros e' H.
    repeat (destruct H as [<-|H]; [reflexivity|]). destruct H. }
  split; [exact I|]. split; [reflexivity|]. split; [exact Clean|].
  exact (unsettled_task_hangs_the_call
           Script.host 5 "two bears" (Some 2%Z) Demo.secondUnreadable
           _ _ _ _ eq_refl I eq_refl Clean).
Defined.

(** X6: an error of the SDK, at the submission or at a status check, is
    the error of the call, unchanged, and the last thing that happens in
    it: nothing is retried and nothing is fetched. *)
Theorem sdk_error_ends_the_call
  {W} (host : Host W) fuel prompt count w r w' t e error :
  generateVideoFromText host fuel prompt count w = (r, w', t) ->
  In e t ->
  sdkRejection e = Some error ->
  r = Some (Rejected error) /\ exists before, t = before ++ [e].
Proof.
  intros Run I S.
  destruct (submitAndPoll host fuel prompt (orDefault count 1%Z) w)
    as [[r1 w1] t1] eqn:Submit.
  assert (Early : In e t1 ->
                  r1 = Some (Rejected error) /\ exists before, t1 = before ++ [e]).
  { pose proof Submit as Inv. apply submitAndPoll_inv in Inv.
    destruct Inv as (params & answer & w0 & _ & _ & _ & Stage).
    destruct Stage as [(first & t0 & -> & Poll & ->)|(_ & -> & _ & ->)].
    - intros [<-|I1]; [discriminate|].
      destruct (pollUntilDone_sdk_rejection host _ _ _ _ _ _ _ _ Poll I1 S)
        as [-> [before ->]].
      split; [reflexivity|].
      now exists (EvGenerateVideos params (Fulfilled first) :: before).
    - intros [<-|[]]. destruct answer as [first|thrown|]; try discriminate.
      simpl in S. injection S as <-. split; [reflexivity | now exists []]. }
  destruct r1 as [[operation|thrown|]|].
  - rewrite (generateVideoFromText_late host _ _ _ _ _ _ _ Submit) in Run.
    destruct (collectVideos host operation w1) as [[r2 w2] t2] eqn:Collect.
    injection Run as _ _ <-.
    apply in_app_or in I. destruct I as [I|I].
    + destruct (Early I) as [Contra _]. discriminate.
    + apply collectVideos_media in Collect. destruct Collect as [_ M].
      apply M, media_event_no_sdk_rejection in I. congruence.
  - destruct (generateVideoFromText_early host _ _ _ _ _ _ _ Submit)
      as (r' & Run' & R & _); [discriminate|].
    rewrite Run' in Run. injection Run as <- _ <-.
    destruct (Early I) as [E Last]. injection E as ->.
    split; [now apply R | exact Last].
  - destruct (generateVideoFromText_early host _ _ _ _ _ _ _ Submit)
      as (r' & Run' & _); [discriminate|].
    rewrite Run' in Run. injection Run as _ _ <-.
    destruct (Early I) as [Contra _]. discriminate.
  - destruct (generateVideoFromText_early host _ _ _ _ _ _ _ Submit)
      as (r' & Run' & _); [discriminate|].
    rewrite Run' in Run. injection Run as _ _ <-.
    destruct (Early I) as [Contra _]. discriminate.
Qed.

Lemma sdk_error_ends_the_call_witness :
  exists r w' t,
    generateVideoFromText Script.host 5 "a bear" None Demo.pollFails =
      (r, w', t) /\
    In (EvGetVideosOperation Script.running (Rejected (VError "network down")))
       t /\
    pollCount t = 2 /\
    fetchedUrls t = [] /\
    r = Some (Rejected (VError "network down")).
Proof.
  do 3 eexists.
  split; [vm_compute; reflexivity|].
  match goal with
  | |- In ?e ?t /\ _ => assert (I : In e t) by (simpl; tauto)
  end.
  split; [exact I|]. split; [reflexivity|]. split; [reflexivity|].
  exact (proj1 (sdk_error_ends_the_call
                  Script.host 5 "a bear" None Demo.pollFails
                  _ _ _ _ _ eq_refl I eq_refl)).
Defined.

(* ================================================================== *)
(** ** Data URLs *)

Section DataUrls.

Local Open Scope string_scope.

Lemma split_without sep s :
  without sep s = true -> JsString.split sep s = [s].
Proof.
  induction s as [|c s IH]; simpl; [reflexivity|].
  destruct (Ascii.eqb c sep); simpl; [discriminate|].
  intros H. now rewrite IH.
Qed.

Lemma split_at_first sep header : forall rest,
  without sep header = true ->
  JsString.split sep (header ++ String sep rest) =
    header :: JsString.split sep rest.
Proof.
  induction header as [|c header IH]; intros rest; simpl.
  - now rewrite Ascii.eqb_refl.
  - destruct (Ascii.eqb c sep); simpl; [discriminate|].
    intros H. now rewrite IH.
Qed.

Lemma split_head sep s :
  exists piece pieces, JsString.split sep s = piece :: pieces.
Proof.
  induction s as [|c s (piece & pieces & IH)]; simpl; [eauto|].
  destruct (Ascii.eqb c sep); [eauto|]. rewrite IH. eauto.
Qed.

End DataUrls.

(** X7: [bloblToBase64] hands back what stands between the first and the
    second comma of the data URL: the whole payload of a data URL whose
    header and payload have no comma (a base64 payload has none), only
    the part before its first comma of a payload that has one, and
    [undefined] for a URL without a comma. *)
Theorem bloblToBase64_strips_the_header (header payload more : string) :
  without "," header = true ->
  without "," payload = true ->
  bloblToBase64 {| dataUrl := Some (header ++ "," ++ payload)%string |} =
    Fulfilled (Some payload) /\
  bloblToBase64
    {| dataUrl := Some (header ++ "," ++ payload ++ "," ++ more)%string |} =
    Fulfilled (Some payload) /\
  bloblToBase64 {| dataUrl := Some header |} = Fulfilled None.
Proof.
  intros H P. unfold bloblToBase64. simpl dataUrl.
  change (header ++ "," ++ payload)%string
    with (header ++ String "," payload)%string.
  change (header ++ "," ++ payload ++ "," ++ more)%string
    with (header ++ String "," (payload ++ String "," more))%string.
  cbv iota beta.
  rewrite !split_at_first by assumption.
  rewrite (split_without "," payload) by assumption.
  rewrite (split_without "," header) by assumption.
  destruct (split_head "," more) as (piece & pieces & ->).
  repeat split; reflexivity.
Qed.

Lemma bloblToBase64_strips_the_header_witness :
  without "," "data:video/mp4;base64" = true /\
  without "," "AAAAIGZ0eXBpc29t" = true /\
  bloblToBase64 {| dataUrl := Some "data:video/mp4;base64,AAAAIGZ0eXBpc29t"%string |} =
    Fulfilled (Some "AAAAIGZ0eXBpc29t"%string).
Proof.
  split; [reflexivity|]. split; [reflexivity|].
  exact (proj1 (bloblToBase64_strips_the_header
                  "data:video/mp4;base64" "AAAAIGZ0eXBpc29t" ""
                  eq_refl eq_refl)).
Defined.

(* ================================================================== *)
(** ** The callers, further *)

Section Blank.

Import JsString.
Local Open Scope string_scope.

Lemma isBlank_app a : forall b,
  isBlank (a ++ b) = isBlank a && isBlank b.
Proof.
  induction a as [|c a IH]; intros b; simpl; [reflexivity|].
  rewrite IH. now rewrite andb_assoc.
Qed.

Lemma isBlank_rev s : isBlank (rev s) = isBlank s.
Proof.
  induction s as [|c s IH]; simpl; [reflexivity|].
  rewrite isBlank_app, IH. simpl. rewrite andb_true_r. apply andb_comm.
Qed.

Lemma trimStart_blank s : isBlank s = true -> trimStart s = "".
Proof.
  induction s as [|c s IH]; simpl; [reflexivity|].
  destruct (isWhiteSpace c); simpl; [exact IH | discriminate].
Qed.

Lemma trimStart_not_blank s :
  isBlank s = false -> isBlank (trimStart s) = false.
Proof.
  induction s as [|c s IH]; simpl; [discriminate|].
  destruct (isWhiteSpace c) eqn:Wc; simpl; [exact IH|].
  now rewrite Wc.
Qed.

(** A string trims to the empty string exactly if it is blank. *)
Lemma truthy_trim s : truthy (trim s) = negb (isBlank s).
Proof.
  unfold trim. destruct (isBlank s) eqn:B; simpl.
  - now rewrite (trimStart_blank s B).
  - assert (N : isBlank (rev (trimStart (rev (trimStart s)))) = false).
    { rewrite isBlank_rev. apply trimStart_not_blank.
      rewrite isBlank_rev. now apply trimStart_not_blank. }
    destruct (rev (trimStart (rev (trimStart s)))); [discriminate|reflexivity].
Qed.

Lemma substring0_short n : forall s,
  String.length s <= n -> substring0 n s = s.
Proof.
  unfold substring0.
  induction n as [|n IH]; intros [|c s]; simpl; intros L;
    try reflexivity; try lia.
  f_equal. apply IH. lia.
Qed.

Lemma substring0_long n : forall s,
  n <= String.length s ->
  String.length (substring0 n s) = n /\
  exists rest, s = substring0 n s ++ rest.
Proof.
  unfold substring0.
  induction n as [|n IH]; intros [|c s]; simpl; intros L; try lia.
  - split; [reflexivity | now exists ""].
  - split; [reflexivity | now exists (String c s)].
  - destruct (IH s) as (Len & rest & E); [lia|].
    split; [now rewrite Len|]. exists rest. now rewrite <- E.
Qed.

Lemma length_append a : forall b,
  String.length (a ++ b) = String.length a + String.length b.
Proof. induction a; intros b; simpl; [reflexivity | now rewrite IHa]. Qed.

End Blank.

Section Outcomes.

Context {W : Type} (host : Host W).

(** The call never returns an empty list. *)
Lemma generateVideoFromText_not_empty fuel prompt count w w' t :
  generateVideoFromText host fuel prompt count w <>
    (Some (Fulfilled []), w', t).
Proof.
  intros Run. apply generateVideoFromText_inv in Run.
  destruct Run as (r1 & w1 & t1 & _ & Cases).
  destruct Cases as [(operation & t2 & _ & Collect & _)|(_ & N & _)].
  - apply collectVideos_fulfilled in Collect.
    destruct Collect as (references & _ & NonEmpty & Order).
    apply EncodedInOrder_length in Order. destruct references; simpl in *;
      congruence.
  - now destruct (N []).
Qed.

Lemma firstFetch_no_media t1 t2 :
  (forall e, In e t1 -> isMediaEvent e = false) ->
  firstFetch (t1 ++ t2) = firstFetch t2.
Proof.
  induction t1 as [|e t1 IH]; intros M; [reflexivity|].
  assert (Me : isMediaEvent e = false) by (apply M; now left).
  destruct e; try discriminate; simpl; apply IH; intros e' I; apply M;
    now right.
Qed.

Lemma EncodedInOrder_first generatedVideo references t entry entries :
  EncodedInOrder host (generatedVideo :: references) t (entry :: entries) ->
  exists res body dataURL,
    firstFetch t = Some (Fulfilled res) /\
    ok res = true /\
    blob res = Fulfilled body /\
    dataUrl body = Some dataURL /\
    entry = nth_error (JsString.split "," dataURL) 1.
Proof.
  intros Order. inversion Order as [|gv events e refs trace es Enc Rest]; subst.
  destruct Enc as (url & res & body & dataURL & -> & Ok & B & D & E).
  exists res, body, dataURL. simpl. auto.
Qed.

(** The first entry of a returned list is what [bloblToBase64] made of
    the body of the first fetch of the run. *)
Lemma first_entry_of_the_first_fetch fuel prompt count w first others w' t :
  generateVideoFromText host fuel prompt count w =
    (Some (Fulfilled (first :: others)), w', t) ->
  exists res body dataURL,
    firstFetch t = Some (Fulfilled res) /\
    ok res = true /\
    blob res = Fulfilled body /\
    dataUrl body = Some dataURL /\
    first = nth_error (JsString.split "," dataURL) 1.
Proof.
  intros Run. apply generateVideoFromText_inv in Run.
  destruct Run as (r1 & w1 & t1 & Submit & Cases).
  destruct Cases as [(operation & t2 & _ & Collect & ->)|(_ & N & _)];
    [|now destruct (N (first :: others))].
  apply collectVideos_fulfilled in Collect.
  destruct Collect as (references & _ & _ & Order).
  rewrite firstFetch_no_media
    by (intros e; eapply submitAndPoll_no_media; eassumption).
  destruct references as [|generatedVideo references];
    [inversion Order|].
  eapply EncodedInOrder_first; eassumption.
Qed.

End Outcomes.

(** X8: the video put in the gallery is the first one fetched: when the
    call succeeds and the body of its first fetch reads as the data URL
    "data:video/mp4;base64," followed by a payload without comma, the
    new video of either handler has exactly this data URL as its URL,
    and it is the video that starts playing. *)
Theorem gallery_gets_the_first_video_fetched
  {W} (host : Host W) fuel prompt w entries w1 t res body payload :
  generateVideoFromText host fuel prompt None w =
    (Some (Fulfilled entries), w1, t) ->
  firstFetch t = Some (Fulfilled res) ->
  blob res = Fulfilled body ->
  dataUrl body = Some ("data:video/mp4;base64," ++ payload)%string ->
  without "," payload = true ->
  (forall originalVideo s,
      description originalVideo = prompt ->
      exists newVideo,
        videos (after (handleSaveEdit host fuel originalVideo s w)) =
          newVideo :: videos s /\
        playingVideo (after (handleSaveEdit host fuel originalVideo s w)) =
          Some newVideo /\
        videoUrl newVideo = ("data:video/mp4;base64," ++ payload)%string) /\
  (forall s,
      promptInput s = prompt ->
      isBlank prompt = false ->
      exists newVideo,
        videos (after (handleGenerateNewVideo host fuel s w)) =
          newVideo :: videos s /\
        playingVideo (after (handleGenerateNewVideo host fuel s w)) =
          Some newVideo /\
        videoUrl newVideo = ("data:video/mp4;base64," ++ payload)%string).
Proof.
  intros Run First B D P.
  destruct entries as [|first others];
    [now apply generateVideoFromText_not_empty in Run|].
  destruct (first_entry_of_the_first_fetch host _ _ _ _ _ _ _ _ Run)
    as (res' & body' & dataURL & First' & _ & B' & D' & ->).
  assert (res' = res) by congruence. subst res'.
  assert (body' = body) by congruence. subst body'.
  assert (dataURL = ("data:video/mp4;base64," ++ payload)%string)
    by congruence.
  subst dataURL.
  assert (E : nth_error
                (JsString.split "," ("data:video/mp4;base64," ++ payload)%string)
                1 = Some payload).
  { change ("data:video/mp4;base64," ++ payload)%string
      with ("data:video/mp4;base64" ++ String "," payload)%string.
    rewrite split_at_first by reflexivity.
    now rewrite split_without. }
  rewrite E in Run.
  split.
  - intros originalVideo s <-. unfold handleSaveEdit. rewrite Run.
    destruct (randomUUID host w1) as [uuid w2].
    eexists. split; [reflexivity|]. split; reflexivity.
  - intros s <- NotBlank. unfold handleGenerateNewVideo.
    rewrite truthy_trim, NotBlank, Run. simpl negb. cbv iota.
    destruct (randomUUID host w1) as [uuid w2].
    eexists. split; [reflexivity|]. split; reflexivity.
Qed.

Lemma gallery_gets_the_first_video_fetched_witness :
  exists entries w1 t,
    generateVideoFromText Script.host 5 (promptInput Script.emptyApp) None
                          Script.twoVideos =
      (Some (Fulfilled entries), w1, t) /\
    firstFetch t = Some (Fulfilled (Script.okResponse "QUFB")) /\
    without "," "QUFB" = true /\
    isBlank (promptInput Script.emptyApp) = false /\
    exists newVideo,
      videos (after (handleGenerateNewVideo Script.host 5 Script.emptyApp
                                            Script.twoVideos)) =
        newVideo :: videos Script.emptyApp /\
      playingVideo (after (handleGenerateNewVideo Script.host 5 Script.emptyApp
                                                  Script.twoVideos)) =
        Some newVideo /\
      videoUrl newVideo = "data:video/mp4;base64,QUFB"%string.
Proof.
  do 3 eexists.
  split; [vm_compute; reflexivity|]. split; [reflexivity|].
  split; [reflexivity|]. split; [reflexivity|].
  exact (proj2 (gallery_gets_the_first_video_fetched
                  Script.host 5 (promptInput Script.emptyApp) Script.twoVideos
                  _ _ _ (Script.okResponse "QUFB") _ "QUFB"
                  eq_refl eq_refl eq_refl eq_refl eq_refl)
           Script.emptyApp eq_refl eq_refl).
Defined.



(** X10: as long as a handler has not come to its end, because the call
    is still polling or because it hangs for good, the state is the one
    set before the call: saving, no error, gallery untouched; only the
    progress page is rendered and no callback of the App can be
    called. *)
Theorem unfinished_handler_shows_only_the_progress_page
  {W} (host : Host W) fuel w theme :
  let frozen (s : AppState) (h : Handled W) :=
    isSaving (after h) = true /\
    generationError (after h) = None /\
    videos (after h) = videos s /\
    generatedVideosCount (after h) = generatedVideosCount s /\
    render theme (after h) = SavingProgressPage /\
    forall a, offers (render theme (after h)) a = false in
  (forall originalVideo s,
      settled (handleSaveEdit host fuel originalVideo s w) <>
        Some (Fulfilled tt) ->
      frozen s (handleSaveEdit host fuel originalVideo s w)) /\
  (forall s,
      settled (handleGenerateNewVideo host fuel s w) <> Some (Fulfilled tt) ->
      frozen s (handleGenerateNewVideo host fuel s w)).
Proof.
  cbv zeta. split.
  - intros originalVideo s. unfold handleSaveEdit.
    destruct (generateVideoFromText host fuel (description originalVideo)
                                    None w) as [[r w1] t].
    destruct r as [[[|first others]|error|]|];
      try destruct (randomUUID host w1) as [uuid w2]; simpl;
      intros N; try congruence; repeat split.
  - intros s. unfold handleGenerateNewVideo.
    destruct (negb (JsString.truthy (JsString.trim (promptInput s))));
      [simpl; congruence|].
    destruct (generateVideoFromText host fuel (promptInput s) None w)
      as [[r w1] t].
    destruct r as [[[|first others]|error|]|];
      try destruct (randomUUID host w1) as [uuid w2]; simpl;
      intros N; try congruence; repeat split.
Qed.

Lemma unfinished_handler_shows_only_the_progress_page_witness :
  let h := handleGenerateNewVideo Script.host 5 Script.emptyApp
                                  Demo.secondUnreadable in
  settled h <> Some (Fulfilled tt) /\
  render "dark" (after h) = SavingProgressPage /\
  offers (render "dark" (after h)) GenerateNewVideo = false.
Proof.
  cbv zeta.
  assert (N : settled (handleGenerateNewVideo Script.host 5 Script.emptyApp
                         Demo.secondUnreadable) <> Some (Fulfilled tt))
    by (vm_compute; discriminate).
  split; [exact N|].
  destruct (proj2 (unfinished_handler_shows_only_the_progress_page
                     Script.host 5 Demo.secondUnreadable "dark")
              Script.emptyApp N)
    as (_ & _ & _ & _ & Page & Nothing).
  split; [exact Page | apply Nothing].
Defined.

Lemma handler_submissions
  {W} (host : Host W) fuel prompt w started (h : Handled W) :
  (forall r w1 t,
      generateVideoFromText host fuel prompt None w = (r, w1, t) ->
      exists finish,
        events h = EvConsoleLog started :: t ++ finish /\
        submissions finish = []) ->
  submissions (events h) =
    [{| GenAI.model := "veo-2.0-generate-001";
        GenAI.prompt := prompt;
        GenAI.config := {| GenAI.numberOfVideos := 1%Z;
                           GenAI.aspectRatio := "16:9" |} |}].
Proof.
  intros Shape.
  destruct (generateVideoFromText host fuel prompt None w)
    as [[r w1] t] eqn:Run.
  destruct (Shape _ _ _ eq_refl) as (finish & -> & F).
  apply generateVideoFromText_submissions in Run. destruct Run as [S _].
  simpl. now rewrite submissions_app, S, F.
Qed.

(** X11: the button is offered exactly when the prompt is not blank,
    that is, has a code unit that is not white space; a blank prompt
    makes [handleGenerateNewVideo] return at once, with no call to the
    host and no change of state; any other prompt is submitted once, as
    it was typed, white space around it included. *)
Theorem blank_prompts_are_not_submitted
  {W} (host : Host W) fuel theme s w :
  (isSaving s = false -> editingVideo s = None ->
   offers (render theme s) GenerateNewVideo = negb (isBlank (promptInput s))) /\
  (isBlank (promptInput s) = true ->
   handleGenerateNewVideo host fuel s w =
     {| after := s; settled := Some (Fulfilled tt);
        world := w; events := [] |}) /\
  (isBlank (promptInput s) = false ->
   submissions (events (handleGenerateNewVideo host fuel s w)) =
     [{| GenAI.model := "veo-2.0-generate-001";
         GenAI.prompt := promptInput s;
         GenAI.config := {| GenAI.numberOfVideos := 1%Z;
                            GenAI.aspectRatio := "16:9" |} |}]).
Proof.
  split; [|split].
  - intros Saving Editing. unfold render. rewrite Saving, Editing. simpl.
    now rewrite truthy_trim, negb_involutive.
  - intros B. unfold handleGenerateNewVideo. now rewrite truthy_trim, B.
  - intros B.
    apply (handler_submissions host fuel (promptInput s) w
             ["Generating video from new prompt..."%string; promptInput s]).
    intros r w1 t Run. unfold handleGenerateNewVideo.
    rewrite truthy_trim, B, Run. simpl negb. cbv iota.
    destruct r as [[[|first others]|error|]|];
      try destruct (randomUUID host w1) as [uuid w2]; simpl;
      try (eexists; split; [reflexivity | reflexivity]).
    + exists []. now rewrite app_nil_r.
    + exists []. now rewrite app_nil_r.
Qed.

Lemma blank_prompts_are_not_submitted_witness :
  let blank := changePrompt (String "009"%char "   ") Script.emptyApp in
  let padded := changePrompt "  a bear  " Script.emptyApp in
  isBlank (promptInput blank) = true /\
  events (handleGenerateNewVideo Script.host 5 blank Script.twoVideos) = [] /\
  isBlank (promptInput padded) = false /\
  map GenAI.prompt
      (submissions (events (handleGenerateNewVideo Script.host 5 padded
                                                   Script.twoVideos))) =
    ["  a bear  "%string].
Proof.
  cbv zeta. split; [reflexivity|]. split.
  - rewrite (proj1 (proj2 (blank_prompts_are_not_submitted
                             Script.host 5 "dark"
                             (changePrompt (String "009"%char "   ")
                                           Script.emptyApp)
                             Script.twoVideos)) eq_refl).
    reflexivity.
  - split; [reflexivity|].
    rewrite (proj2 (proj2 (blank_prompts_are_not_submitted
                             Script.host 5 "dark"
                             (changePrompt "  a bear  " Script.emptyApp)
                             Script.twoVideos)) eq_refl).
    reflexivity.
Defined.

(** X12: the title of a generated video holds the prompt in full when
    the prompt has at most 30 code units, and otherwise its first 30
    code units followed by "..."; it never has more than 46 code units,
    however long the prompt.  The description keeps the whole prompt. *)
Theorem generated_title_is_bounded
  {W} (host : Host W) fuel s w first others w1 t :
  isBlank (promptInput s) = false ->
  generateVideoFromText host fuel (promptInput s) None w =
    (Some (Fulfilled (first :: others)), w1, t) ->
  exists newVideo,
    videos (after (handleGenerateNewVideo host fuel s w)) =
      newVideo :: videos s /\
    description newVideo = promptInput s /\
    String.length (title newVideo) <= 46 /\
    (String.length (promptInput s) <= 30 ->
     title newVideo =
       ("Generated: " ++ quote ++ promptInput s ++ quote)%string) /\
    (30 < String.length (promptInput s) ->
     exists kept rest,
       promptInput s = (kept ++ rest)%string /\
       String.length kept = 30 /\
       title newVideo =
         ("Generated: " ++ quote ++ kept ++ "..." ++ quote)%string).
Proof.
  intros B Run. unfold handleGenerateNewVideo.
  rewrite truthy_trim, B, Run. simpl negb. cbv iota.
  destruct (randomUUID host w1) as [uuid w2].
  eexists. split; [reflexivity|]. split; [reflexivity|].
  cbn [title]. set (prompt := promptInput s).
  destruct (Nat.ltb 30 (String.length prompt)) eqn:Long.
  - apply Nat.ltb_lt in Long.
    destruct (substring0_long 30 prompt) as (Len & rest & E); [lia|].
    split; [|split].
    + rewrite !length_append, Len. simpl. lia.
    + lia.
    + intros _. exists (JsString.substring0 30 prompt), rest. auto.
  - apply Nat.ltb_ge in Long.
    rewrite (substring0_short 30 prompt Long).
    split; [|split].
    + rewrite !length_append. simpl. lia.
    + intros _. reflexivity.
    + lia.
Qed.

Lemma generated_title_is_bounded_witness :
  let s := changePrompt
             "a majestic grizzly bear standing knee-deep in the rapids"
             Script.emptyApp in
  isBlank (promptInput s) = false /\
  exists newVideo,
    videos (after (handleGenerateNewVideo Script.host 5 s Script.twoVideos)) =
      newVideo :: videos s /\
    String.length (title newVideo) <= 46 /\
    title newVideo =
      ("Generated: " ++ quote ++ "a majestic grizzly bear standi" ++ "..."
       ++ quote)%string.
Proof.
  cbv zeta. split; [reflexivity|].
  destruct (generated_title_is_bounded
              Script.host 5
              (changePrompt
                 "a majestic grizzly bear standing knee-deep in the rapids"
                 Script.emptyApp)
              Script.twoVideos (Some "QUFB"%string) [Some "QkJC"%string]
              _ _ eq_refl eq_refl)
    as (newVideo & V & _ & L & _ & _).
  exists newVideo. split; [exact V|]. split; [exact L|].
  vm_compute in V. injection V as <-. reflexivity.
Defined.

(* ================================================================== *)
(** ** Sessions *)

Section Sessions.

Context {W : Type} (host : Host W).

Lemma handleSaveEdit_after fuel originalVideo s w :
  editingVideo (after (handleSaveEdit host fuel originalVideo s w)) = None /\
  keptOrAddedOne s (after (handleSaveEdit host fuel originalVideo s w)).
Proof.
  unfold handleSaveEdit, keptOrAddedOne.
  destruct (generateVideoFromText host fuel (description originalVideo) None w)
    as [[r w1] t].
  destruct r as [[[|first others]|error|]|];
    try destruct (randomUUID host w1) as [uuid w2]; simpl;
    (split; [reflexivity|]); eauto.
Qed.

Lemma handleGenerateNewVideo_after fuel s w :
  editingVideo (after (handleGenerateNewVideo host fuel s w)) =
    editingVideo s /\
  keptOrAddedOne s (after (handleGenerateNewVideo host fuel s w)).
Proof.
  unfold handleGenerateNewVideo, keptOrAddedOne.
  destruct (negb (JsString.truthy (JsString.trim (promptInput s))));
    [simpl; auto|].
  destruct (generateVideoFromText host fuel (promptInput s) None w)
    as [[r w1] t].
  destruct r as [[[|first others]|error|]|];
    try destruct (randomUUID host w1) as [uuid w2]; simpl;
    (split; [reflexivity|]); eauto.
Qed.

(** What the screen must show for a callback to be offered. *)
Lemma offers_inv theme s a :
  offers (render theme s) a = true ->
  isSaving s = false /\
  match a with
  | PlayVideo _ | GenerateNewVideo | ChangePrompt _ => editingVideo s = None
  | CancelEdit | SaveEdit _ => editingVideo s <> None
  | ClosePlayer | StartEdit _ => playingVideo s <> None
  | CloseError => generationError s <> None
  end.
Proof.
  unfold render. destruct (isSaving s); [discriminate|].
  intros O. split; [reflexivity|].
  destruct a; simpl in O;
    destruct (editingVideo s), (playingVideo s), (generationError s);
    simpl in O; congruence.
Qed.

End Sessions.

(** X13: in a session that starts with the first render, the editor and
    the player are never open together, whatever the user does with the
    callbacks that the screen offers and whatever the host answers. *)
Theorem editor_and_player_never_open_together
  {W} (host : Host W) MOCK_VIDEOS count s :
  Reachable host (initialState MOCK_VIDEOS count) s ->
  editingVideo s = None \/ playingVideo s = None.
Proof.
  induction 1 as [|s theme a fuel w R IH O]; [now left|].
  apply offers_inv in O. destruct O as [_ O].
  destruct a; simpl in *; auto.
  - destruct (handleSaveEdit_after host fuel video s w) as [E _]. now left.
  - destruct (handleGenerateNewVideo_after host fuel s w) as [E _].
    left. congruence.
Qed.

Lemma editor_and_player_never_open_together_witness :
  let s0 := initialState [Script.bearVideo] 0 in
  let s1 := perform Script.host 0 Script.twoVideos
                    (PlayVideo Script.bearVideo) s0 in
  let s2 := perform Script.host 0 Script.twoVideos
                    (StartEdit Script.bearVideo) s1 in
  let s3 := perform Script.host 5 Script.twoVideos
                    (SaveEdit Script.bearVideo) s2 in
  Reachable Script.host s0 s3 /\
  editingVideo s3 = None /\
  (editingVideo s3 = None \/ playingVideo s3 = None).
Proof.
  cbv zeta.
  assert (R : Reachable Script.host (initialState [Script.bearVideo] 0)
                (perform Script.host 5 Script.twoVideos
                   (SaveEdit Script.bearVideo)
                   (perform Script.host 0 Script.twoVideos
                      (StartEdit Script.bearVideo)
                      (perform Script.host 0 Script.twoVideos
                         (PlayVideo Script.bearVideo)
                         (initialState [Script.bearVideo] 0))))).
  { apply (ReachedNext _ _ _ "dark"%string); [|reflexivity].
    apply (ReachedNext _ _ _ "dark"%string); [|reflexivity].
    apply (ReachedNext _ _ _ "dark"%string); [|reflexivity].
    apply ReachedInitial. }
  split; [exact R|]. split; [reflexivity|].
  exact (editor_and_player_never_open_together
           Script.host [Script.bearVideo] 0%Z _ R).
Defined.



(* ================================================================== *)
(** ** What is kept in local storage *)

Section Decimal.

Local Open Scope Z_scope.

Lemma digitsValue_step acc c s v :
  digitValue c = Some v ->
  digitsValue acc (String c s) = digitsValue (10 * acc + v) s.
Proof. intros D. cbn [digitsValue]. now rewrite D. Qed.

Ltac digit_value :=
  repeat match goal with
         | |- context [Z.of_N (N_of_ascii ?c - 48)] =>
             let v := eval vm_compute in (Z.of_N (N_of_ascii c - 48)) in
             change (Z.of_N (N_of_ascii c - 48)) with v
         end.

Lemma digitsValue_of_uint_acc d : forall p,
  digitsValue (Z.pos p) (NilEmpty.string_of_uint d) =
    Z.pos (Pos.of_uint_acc d p).
Proof.
  induction d; intros p;
    cbn [NilEmpty.string_of_uint Pos.of_uint_acc]; [reflexivity|..];
    erewrite digitsValue_step by reflexivity;
    rewrite <- IHd; f_equal; digit_value; lia.
Qed.

Lemma digitsValue_of_uint d :
  digitsValue 0 (NilEmpty.string_of_uint d) = Z.of_N (Pos.of_uint d).
Proof.
  induction d; cbn [NilEmpty.string_of_uint Pos.of_uint]; [reflexivity|..];
    erewrite digitsValue_step by reflexivity;
    [exact IHd | cbn [Z.of_N]; rewrite <- digitsValue_of_uint_acc;
                 f_equal; digit_value; lia ..].
Qed.

(** A string that starts with a digit is read from its first code
    unit. *)
Lemma parseInt10_digits c s v :
  digitValue c = Some v ->
  parseInt10 (String c s) = Some (digitsValue 0 (String c s)) /\
  parseInt10 (String "-" (String c s)) = Some (- digitsValue 0 (String c s)).
Proof.
  destruct c as [[|] [|] [|] [|] [|] [|] [|] [|]];
    try discriminate; intros _; split; unfold parseInt10; simpl;
    try reflexivity;
    match goal with
    | |- Some (match ?x with _ => _ end) = _ => now destruct x
    end.
Qed.

Lemma string_of_uint_digit d :
  d <> Decimal.Nil ->
  exists c s v,
    NilEmpty.string_of_uint d = String c s /\ digitValue c = Some v.
Proof.
  destruct d; intros N; try congruence; simpl; do 3 eexists;
    (split; [reflexivity | reflexivity]).
Qed.

Lemma string_of_uint_nonnil d :
  d <> Decimal.Nil ->
  NilZero.string_of_uint d = NilEmpty.string_of_uint d.
Proof. destruct d; intros N; [congruence | reflexivity ..]. Qed.

Lemma parseInt10_showNumber n : parseInt10 (showNumber n) = Some n.
Proof.
  unfold showNumber. destruct n as [|p|p]; [reflexivity| |]; simpl.
  - pose proof (DecimalPos.Unsigned.to_uint_nonnil p) as N.
    destruct (string_of_uint_digit _ N) as (c & s & v & E & D).
    pose proof (string_of_uint_nonnil _ N) as S.
    rewrite S, E.
    rewrite (proj1 (parseInt10_digits c s v D)), <- E, digitsValue_of_uint.
    now rewrite DecimalPos.Unsigned.of_to.
  - pose proof (DecimalPos.Unsigned.to_uint_nonnil p) as N.
    destruct (string_of_uint_digit _ N) as (c & s & v & E & D).
    pose proof (string_of_uint_nonnil _ N) as S.
    rewrite S, E.
    rewrite (proj2 (parseInt10_digits c s v D)), <- E, digitsValue_of_uint.
    now rewrite DecimalPos.Unsigned.of_to.
Qed.

Lemma showNumber_truthy n : JsString.truthy (showNumber n) = true.
Proof.
  destruct (showNumber n) eqn:E; [|reflexivity].
  pose proof (parseInt10_showNumber n) as P. rewrite E in P. discriminate.
Qed.

End Decimal.

(** X15: the count survives a reload: what the effect writes for a count
    is read back by the initializer as that count, for every integer in
    the range in which the numbers of JavaScript are exact; and writing
    the count leaves the saved theme as it is. *)
Theorem count_survives_a_reload (store : Store) (n : Z) prefersDark :
  (- 2 ^ 53 < n < 2 ^ 53)%Z ->
  parseInt10 (showNumber n) = Some n /\
  initialGeneratedVideosCount (persistCount n (Granted store true)) = Some n /\
  initialTheme (persistCount n (Granted store true)) prefersDark =
    initialTheme (Granted store true) prefersDark.
Proof.
  intros _. split; [apply parseInt10_showNumber|]. split.
  - unfold initialGeneratedVideosCount, persistCount, trySetItem,
      getItem, setItem. simpl.
    rewrite showNumber_truthy. apply parseInt10_showNumber.
  - reflexivity.
Qed.

Lemma count_survives_a_reload_witness :
  (- 2 ^ 53 < 41 < 2 ^ 53)%Z /\
  showNumber 41 = "41"%string /\
  initialGeneratedVideosCount (persistCount 41 (Granted Demo.emptyStore true)) =
    Some 41%Z.
Proof.
  assert (R : (- 2 ^ 53 < 41 < 2 ^ 53)%Z) by (split; reflexivity).
  split; [exact R|]. split; [reflexivity|].
  exact (proj1 (proj2 (count_survives_a_reload Demo.emptyStore 41 None R))).
Defined.

Section Themes.

Local Open Scope string_scope.

Lemma isTheme_cases theme :
  isTheme theme = true -> theme = "light" \/ theme = "dark".
Proof.
  unfold isTheme. intros H. apply orb_prop in H.
  destruct H as [H|H]; apply String.eqb_eq in H; auto.
Qed.

Lemma hasToken_app token a b :
  hasToken token (a ++ b)%list = hasToken token a || hasToken token b.
Proof. apply existsb_app. Qed.

Lemma hasToken_single token c : hasToken token [c] = String.eqb token c.
Proof. unfold hasToken. simpl. apply orb_false_r. Qed.

Lemma hasToken_removeThemeClasses token classes :
  hasToken token (removeThemeClasses classes) =
    hasToken token classes
    && negb (String.eqb token "light" || String.eqb token "dark").
Proof.
  unfold hasToken, removeThemeClasses.
  induction classes as [|c classes IH]; simpl; [reflexivity|].
  destruct (String.eqb token c) eqn:E.
  - apply String.eqb_eq in E. subst c.
    destruct (String.eqb token "light" || String.eqb token "dark"); simpl.
    + now rewrite IH, andb_false_r.
    + now rewrite String.eqb_refl.
  - destruct (String.eqb c "light" || String.eqb c "dark"); simpl.
    + exact IH.
    + now rewrite E.
Qed.

End Themes.



(** X17: the theme survives a reload: a theme that is not the empty
    string, once applied with a storage that can be written, is the
    theme of the next start, whatever the user's preference; and
    applying a theme leaves the saved count as it is. *)
Theorem theme_survives_a_reload
  (store : Store) (theme : string) classes classes' storage' prefersDark :
  applyTheme theme classes (Granted store true) = Some (classes', storage') ->
  initialTheme storage' prefersDark = theme /\
  initialGeneratedVideosCount storage' =
    initialGeneratedVideosCount (Granted store true).
Proof.
  unfold applyTheme, classListAdd.
  destruct (JsString.truthy theme) eqn:T; [|discriminate]. simpl.
  destruct (hasTokenSpace theme); [discriminate|].
  intros H.
  assert (S : storage' = trySetItem "theme" theme (Granted store true))
    by (destruct (hasToken theme (removeThemeClasses classes));
        now injection H as _ <-).
  subst storage'. split; [|reflexivity].
  unfold initialTheme, trySetItem, getItem, setItem. simpl.
  now rewrite T.
Qed.

Lemma theme_survives_a_reload_witness :
  exists classes' storage',
    applyTheme "light" ["font-sans"; "dark"]%string
               (Granted Demo.emptyStore true) = Some (classes', storage') /\
    classes' = ["font-sans"; "light"]%string /\
    initialTheme storage' (Some true) = "light"%string.
Proof.
  do 2 eexists. split; [reflexivity|]. split; [reflexivity|].
  exact (proj1 (theme_survives_a_reload
                  Demo.emptyStore "light" ["font-sans"; "dark"]%string
                  _ _ (Some true) eq_refl)).
Defined.

(** X18: the theme toggle: whatever the theme was, a saved item of any
    content included, a toggle makes it "light" or "dark"; on these two
    a second toggle undoes the first; and the label of the button always
    names the theme that a click switches to, with the sun shown exactly
    when that theme is "light". *)
Theorem toggle_switches_between_the_two_themes (theme : string) :
  isTheme (handleToggleTheme theme) = true /\
  (isTheme theme = true ->
   handleToggleTheme (handleToggleTheme theme) = theme) /\
  ariaLabel (ThemeToggle theme) =
    ("Switch to " ++ handleToggleTheme theme ++ " mode")%string /\
  (icon (ThemeToggle theme) = SunIcon <->
   handleToggleTheme theme = "light"%string).
Proof.
  unfold handleToggleTheme, ThemeToggle. simpl.
  destruct (String.eqb theme "dark") eqn:E; repeat split; try reflexivity;
    try discriminate.
  - intros _. apply String.eqb_eq in E. now subst.
  - intros T. apply isTheme_cases in T. destruct T as [->| ->];
      [reflexivity | discriminate].
Qed.

Lemma toggle_switches_between_the_two_themes_witness :
  isTheme "light" = true /\
  handleToggleTheme "solarized" = "dark"%string /\
  handleToggleTheme (handleToggleTheme "light") = "light"%string.
Proof.
  split; [reflexivity|]. split; [reflexivity|].
  exact (proj1 (proj2 (toggle_switches_between_the_two_themes "light"))
           eq_refl).
Defined.

(** X19: applying one of the two themes always succeeds and leaves the
    root element with the class of that theme and without the class of
    the other one, every other class being kept; applying a theme that
    is empty or holds white space throws before anything is saved. *)
Theorem applied_theme_is_the_only_theme_class
  (theme : string) classes storage :
  (isTheme theme = true ->
   exists classes',
     applyTheme theme classes storage =
       Some (classes', trySetItem "theme" theme storage) /\
     hasToken theme classes' = true /\
     hasToken (handleToggleTheme theme) classes' = false /\
     forall other,
       isTheme other = false ->
       hasToken other classes' = hasToken other classes) /\
  (JsString.truthy theme = false \/ hasTokenSpace theme = true ->
   applyTheme theme classes storage = None).
Proof.
  split.
  - intros T. apply isTheme_cases in T. unfold applyTheme, classListAdd.
    assert (Ok : negb (JsString.truthy theme) || hasTokenSpace theme = false)
      by (destruct T as [->| ->]; reflexivity).
    rewrite Ok.
    assert (Gone : hasToken theme (removeThemeClasses classes) = false).
    { rewrite hasToken_removeThemeClasses.
      destruct T as [->| ->]; simpl; apply andb_false_r. }
    rewrite Gone. eexists. split; [reflexivity|].
    split; [|split].
    + rewrite hasToken_app, hasToken_single, String.eqb_refl.
      apply orb_true_r.
    + rewrite hasToken_app, hasToken_single, hasToken_removeThemeClasses.
      destruct T as [->| ->]; simpl; now rewrite andb_false_r.
    + intros other O.
      rewrite hasToken_app, hasToken_single, hasToken_removeThemeClasses.
      unfold isTheme in O. rewrite O. simpl.
      rewrite andb_true_r.
      assert (N : String.eqb other theme = false).
      { apply orb_false_elim in O. destruct O as [L D].
        destruct T as [->| ->]; assumption. }
      rewrite N. apply orb_false_r.
  - intros Bad. unfold applyTheme, classListAdd.
    assert (B : negb (JsString.truthy theme) || hasTokenSpace theme = true)
      by (destruct Bad as [-> | ->]; [reflexivity | apply orb_true_r]).
    now rewrite B.
Qed.

Lemma applied_theme_is_the_only_theme_class_witness :
  isTheme "dark" = true /\
  applyTheme "dark" ["light"; "font-sans"; "dark"]%string Denied =
    Some (["font-sans"; "dark"]%string, Denied) /\
  hasTokenSpace "my theme" = true /\
  applyTheme "my theme" ["light"]%string Denied = None.
Proof.
  split; [reflexivity|]. split; [reflexivity|]. split; [reflexivity|].
  exact (proj2 (applied_theme_is_the_only_theme_class
                  "my theme" ["light"]%string Denied)
           (or_intror eq_refl)).
Defined.
